(** * Todo application: client retry wrapper and the API contracts

    A shallow embedding of [frontend/src/utils/api.ts] (the axios client with
    its request and response interceptors) and of the backend contracts the
    specification states for registration, task ownership, pagination and
    password reset.

    Conventions.
    - [localStorage] is a finite map from keys to strings; [getItem] of a
      missing key is [None] (JavaScript [null]).
    - JavaScript values exchanged with the server are the type [Js.value];
      numbers and arrays are outside the model (the token endpoints exchange
      strings, [null] and objects).
    - Every HTTP call the client issues is appended to [calls], and answered
      by a transport function [net] that sees the whole history, so a theorem
      quantified over [net] holds for every server behaviour. *)

From Stdlib Require Import Ascii String.
From stdpp Require Import gmap strings list.

Open Scope string_scope.

(** ** JavaScript values *)

Module Js.

#[warnings="-register-all"]
Inductive value : Type :=
  | Undefined
  | Null
  | Bool (b : bool)
  | Str (s : string)
  | Obj (fields : list (string * value)).

(** [if (v)] *)
Definition truthy (v : value) : bool :=
  match v with
  | Undefined | Null => false
  | Bool b => b
  | Str s => negb (String.eqb s "")
  | Obj _ => true
  end.

(** [String(v)], as applied by [localStorage.setItem] and by template
    literals. *)
Definition to_string (v : value) : string :=
  match v with
  | Undefined => "undefined"
  | Null => "null"
  | Bool true => "true"
  | Bool false => "false"
  | Str s => s
  | Obj _ => "[object Object]"
  end.

Fixpoint assoc (k : string) (fields : list (string * value)) : value :=
  match fields with
  | [] => Undefined
  | (k', v) :: rest => if String.eqb k k' then v else assoc k rest
  end.

(** Property read [v.k] as done by a destructuring pattern: [None] is the
    [TypeError] raised on [undefined] and [null]; a missing property, or a
    property of a primitive, is [undefined]. *)
Definition get (k : string) (v : value) : option value :=
  match v with
  | Undefined | Null => None
  | Obj fields => Some (assoc k fields)
  | Bool _ | Str _ => Some Undefined
  end.

(** Whether a key occurs anywhere in a value, at any depth. *)
Fixpoint has_key (k : string) (v : value) : bool :=
  match v with
  | Obj fields =>
      (fix any (l : list (string * value)) : bool :=
         match l with
         | [] => false
         | (k', v') :: rest => String.eqb k k' || has_key k v' || any rest
         end) fields
  | _ => false
  end.

End Js.

(** ** The axios client of [frontend/src/utils/api.ts] *)

Module Client.

Record config : Type := Config {
  method : string;
  url : string;
  baseURL : option string;
  timeout : option Z;
  headers : gmap string string;
  params : Js.value;
  data : Js.value;
  _retry : bool
}.

Record response : Type := Response {
  status : Z;
  rdata : Js.value
}.

(** What the transport gives back for one HTTP exchange. *)
Inductive transport : Type :=
  | Answer (r : response)
  | NoResponse.

(** A rejected promise carries an axios error (with the request's config and,
    when the server answered, the response) or a plain JavaScript error. *)
Inductive error : Type :=
  | AxiosError (cfg : config) (resp : option response)
  | JsError (msg : string).

Inductive settled : Type :=
  | Resolved (r : response)
  | Rejected (e : error).

(** An outbound HTTP request: through the [apiClient] instance (interceptors
    apply) or through the global [axios] (no interceptors). *)
Inductive call : Type :=
  | ViaClient (c : config)
  | ViaAxios (c : config).

Definition call_config (e : call) : config :=
  match e with ViaClient c | ViaAxios c => c end.

Definition is_client (e : call) : bool :=
  match e with ViaClient _ => true | ViaAxios _ => false end.

Definition is_axios (e : call) : bool := negb (is_client e).

Record world : Type := World {
  localStorage : gmap string string;
  location_href : string;
  calls : list call
}.

Definition getItem (k : string) (w : world) : option string :=
  localStorage w !! k.

Definition setItem (k : string) (v : Js.value) (w : world) : world :=
  World (<[k := Js.to_string v]> (localStorage w)) (location_href w) (calls w).

Definition removeItem (k : string) (w : world) : world :=
  World (delete k (localStorage w)) (location_href w) (calls w).

Definition set_href (h : string) (w : world) : world :=
  World (localStorage w) h (calls w).

Definition record_call (e : call) (w : world) : world :=
  World (localStorage w) (location_href w) (calls w ++ [e]).

Definition set_retry (c : config) : config :=
  Config (method c) (url c) (baseURL c) (timeout c) (headers c)
         (params c) (data c) true.

Definition set_header (k v : string) (c : config) : config :=
  Config (method c) (url c) (baseURL c) (timeout c) (<[k := v]> (headers c))
         (params c) (data c) (_retry c).

(** A string is truthy when it is not empty; [null] is falsy. *)
Definition truthy_item (o : option string) : bool :=
  match o with
  | Some s => negb (String.eqb s "")
  | None => false
  end.

Section WithEnvironment.

(** [process.env.NEXT_PUBLIC_API_URL] *)
Variable NEXT_PUBLIC_API_URL : option string.

(** The server and the network: the answer to a request may depend on every
    request issued before it. *)
Variable net : list call -> call -> transport.

Definition API_BASE_URL : string :=
  if truthy_item NEXT_PUBLIC_API_URL
  then default "" NEXT_PUBLIC_API_URL
  else "http://localhost:8000".

(** [axios.create({ baseURL, timeout, headers })]: the instance defaults are
    merged under the request's own settings; a property axios does not know,
    such as [_retry], is carried over. *)
Definition mergeConfig (c : config) : config :=
  Config (method c) (url c)
         (Some (default API_BASE_URL (baseURL c)))
         (Some (default 30000%Z (timeout c)))
         (headers c ∪ {[ "Content-Type" := "application/json" ]})
         (params c) (data c) (_retry c).

(** Request interceptor (api.ts, lines 21-30). *)
Definition request_interceptor (c : config) (w : world) : config :=
  let token := getItem "access_token" w in
  if truthy_item token
  then set_header "Authorization" ("Bearer " +:+ default "" token) c
  else c.

(** axios' default [validateStatus]. *)
Definition validateStatus (st : Z) : bool :=
  (200 <=? st)%Z && (st <? 300)%Z.

(** One HTTP exchange: the request is recorded, the transport answers, and
    the promise settles according to [validateStatus]. *)
Definition dispatch (mk : config -> call) (c : config) (w : world)
  : settled * world :=
  let w' := record_call (mk c) w in
  match net (calls w) (mk c) with
  | NoResponse => (Rejected (AxiosError c None), w')
  | Answer r =>
      if validateStatus (status r)
      then (Resolved r, w')
      else (Rejected (AxiosError c (Some r)), w')
  end.

(** [axios.post(url, data)] on the global instance. *)
Definition axios_post (u : string) (d : Js.value) (w : world)
  : settled * world :=
  dispatch ViaAxios
    (Config "post" u None None ∅ Js.Undefined d false) w.

(** [error.response?.status === 401] *)
Definition status_is_401 (resp : option response) : bool :=
  match resp with
  | Some r => (status r =? 401)%Z
  | None => false
  end.

(** The [catch (refreshError)] block (api.ts, lines 59-64). *)
Definition catch_refreshError (refreshError : error) (w : world)
  : settled * world :=
  let w := removeItem "access_token" w in
  let w := removeItem "refresh_token" w in
  let w := set_href "/auth/login" w in
  (Rejected refreshError, w).

(** Response interceptor, rejected branch (api.ts, lines 35-68). [retry] is
    [apiClient] itself; the promise it returns leaves the [try] block
    unawaited, so its rejection is not caught there. *)
Definition response_rejected
    (retry : config -> world -> option (settled * world))
    (err : error) (w : world) : option (settled * world) :=
  match err with
  | JsError _ => Some (Rejected err, w)
  | AxiosError originalRequest resp =>
      if status_is_401 resp && negb (_retry originalRequest) then
        let originalRequest := set_retry originalRequest in
        let refreshToken := getItem "refresh_token" w in
        if negb (truthy_item refreshToken) then
          Some (catch_refreshError (JsError "No refresh token available") w)
        else
          match axios_post (API_BASE_URL +:+ "/api/v1/refresh")
                  (Js.Obj [("refresh_token",
                            Js.Str (default "" refreshToken))]) w with
          | (Rejected e, w1) => Some (catch_refreshError e w1)
          | (Resolved response, w1) =>
              match Js.get "access_token" (rdata response),
                    Js.get "refresh_token" (rdata response) with
              | Some access_token, Some newRefreshToken =>
                  let w2 := setItem "access_token" access_token w1 in
                  let w3 :=
                    if Js.truthy newRefreshToken
                    then setItem "refresh_token" newRefreshToken w2
                    else w2 in
                  let originalRequest :=
                    set_header "Authorization"
                      ("Bearer " +:+ Js.to_string access_token)
                      originalRequest in
                  retry originalRequest w3
              | _, _ =>
                  Some (catch_refreshError
                          (JsError "Cannot destructure response.data") w1)
              end
          end
      else Some (Rejected err, w)
  end.

(** [apiClient(config)]: defaults, request interceptor, the exchange, then
    the response interceptors. [None] only when the fuel is exhausted. *)
Fixpoint apiClient (fuel : nat) (c : config) (w : world)
  : option (settled * world) :=
  match fuel with
  | O => None
  | S fuel' =>
      let c1 := request_interceptor (mergeConfig c) w in
      match dispatch ViaClient c1 w with
      | (Resolved r, w1) => Some (Resolved r, w1)
      | (Rejected e, w1) => response_rejected (apiClient fuel') e w1
      end
  end.

(** The request the interceptor posts to refresh the session. *)
Definition refresh_request (refreshToken : string) : config :=
  Config "post" (API_BASE_URL +:+ "/api/v1/refresh") None None ∅
         Js.Undefined (Js.Obj [("refresh_token", Js.Str refreshToken)]) false.

(** The request [apiClient] puts on the wire first. *)
Definition first_request (c : config) (w : world) : config :=
  request_interceptor (mergeConfig c) w.

(** Whether the refresh step of the interceptor delivers tokens in world
    [w]: a refresh token is stored, the refresh call resolves, and its body
    can be destructured. *)
Definition refresh_succeeds (w : world) : bool :=
  truthy_item (getItem "refresh_token" w) &&
  match axios_post (API_BASE_URL +:+ "/api/v1/refresh")
          (Js.Obj [("refresh_token",
                    Js.Str (default "" (getItem "refresh_token" w)))]) w with
  | (Resolved r, _) => bool_decide (is_Some (Js.get "access_token" (rdata r)))
  | (Rejected _, _) => false
  end.

(** The world after the first exchange of [apiClient c], and after the
    refresh call that follows it. *)
Definition after_first (c : config) (w : world) : world :=
  record_call (ViaClient (first_request c w)) w.

Definition after_refresh (c : config) (w : world) : world :=
  record_call
    (ViaAxios (refresh_request (default "" (getItem "refresh_token" w))))
    (after_first c w).

(** Lines 52-55 and line 57 of api.ts, named: the storage update after a
    refresh, and the request that is sent again. *)
Definition store_tokens (access_token newRefreshToken : Js.value)
    (w : world) : world :=
  let w2 := setItem "access_token" access_token w in
  if Js.truthy newRefreshToken
  then setItem "refresh_token" newRefreshToken w2
  else w2.

Definition retried_request (access_token : Js.value) (c : config)
    (w : world) : config :=
  set_header "Authorization" ("Bearer " +:+ Js.to_string access_token)
    (set_retry (first_request c w)).

End WithEnvironment.

(** [apiClient.get(url, { params })], [apiClient.post(url, data)], ...: the
    config each helper method hands to [apiClient]. *)
Definition request (m u : string) (p d : Js.value) : config :=
  Config m u None None ∅ p d false.

Definition get (u : string) (p : Js.value) := request "get" u p Js.Undefined.
Definition post (u : string) (d : Js.value) := request "post" u Js.Undefined d.
Definition put (u : string) (d : Js.value) := request "put" u Js.Undefined d.
Definition patch (u : string) (d : Js.value) :=
  request "patch" u Js.Undefined d.
Definition delete_ (u : string) :=
  request "delete" u Js.Undefined Js.Undefined.

Module authApi.
Definition login (email password : string) : config :=
  post "/api/v1/login"
    (Js.Obj [("email", Js.Str email); ("password", Js.Str password)]).
Definition register (userData : Js.value) : config :=
  post "/api/v1/register" userData.
Definition logout : config := post "/api/v1/logout" Js.Undefined.
Definition refresh (refreshToken : string) : config :=
  post "/api/v1/refresh" (Js.Obj [("refresh_token", Js.Str refreshToken)]).
Definition forgotPassword (data : Js.value) : config :=
  post "/api/v1/forgot-password" data.
Definition resetPassword (data : Js.value) : config :=
  post "/api/v1/reset-password" data.
End authApi.

Module userApi.
Definition getProfile : config := get "/api/v1/me" Js.Undefined.
Definition updateProfile (userData : Js.value) : config :=
  put "/api/v1/me" userData.
End userApi.

Module taskApi.
Definition getTasks (params : Js.value) : config := get "/api/v1/tasks" params.
Definition createTask (taskData : Js.value) : config :=
  post "/api/v1/tasks" taskData.
Definition getTask (taskId : string) : config :=
  get ("/api/v1/tasks/" +:+ taskId) Js.Undefined.
Definition updateTask (taskId : string) (taskData : Js.value) : config :=
  put ("/api/v1/tasks/" +:+ taskId) taskData.
Definition deleteTask (taskId : string) : config :=
  delete_ ("/api/v1/tasks/" +:+ taskId).
Definition toggleTaskComplete (taskId : string) (isCompleted : bool)
  : config :=
  patch ("/api/v1/tasks/" +:+ taskId +:+ "/complete")
    (Js.Obj [("is_completed", Js.Bool isCompleted)]).
End taskApi.

Module priorityApi.
Definition getPriorities : config := get "/api/v1/priorities" Js.Undefined.
Definition createPriority (priorityData : Js.value) : config :=
  post "/api/v1/priorities" priorityData.
Definition updatePriority (priorityId : string) (priorityData : Js.value)
  : config :=
  put ("/api/v1/priorities/" +:+ priorityId) priorityData.
Definition deletePriority (priorityId : string) : config :=
  delete_ ("/api/v1/priorities/" +:+ priorityId).
End priorityApi.

Module tagApi.
Definition getTags : config := get "/api/v1/tags" Js.Undefined.
Definition createTag (tagData : Js.value) : config :=
  post "/api/v1/tags" tagData.
Definition updateTag (tagId : string) (tagData : Js.value) : config :=
  put ("/api/v1/tags/" +:+ tagId) tagData.
Definition deleteTag (tagId : string) : config :=
  delete_ ("/api/v1/tags/" +:+ tagId).
End tagApi.

Module aiApi.
Definition sendMessage (messageData : Js.value) : config :=
  post "/api/v1/chat" messageData.
End aiApi.

End Client.

(** ** Text handling of the backend: Python [str] methods and [re]

    Strings are sequences of ASCII characters: on them the functions below
    are Python's. Python's [lower] and [strip] also know the letters and
    blanks of Unicode, which are outside the model, so what is said about the
    set of accepted inputs is said for ASCII input ([TextSpec.is_ascii]). *)

Module Text.

Definition code (a : ascii) : N := Ascii.N_of_ascii a.

Definition in_range (lo hi : N) (a : ascii) : bool :=
  (lo <=? code a)%N && (code a <=? hi)%N.

Definition is_upper : ascii -> bool := in_range 65 90.
Definition is_lower : ascii -> bool := in_range 97 122.
Definition is_digit : ascii -> bool := in_range 48 57.
Definition is_alpha (a : ascii) : bool := is_upper a || is_lower a.

(** [str.isspace] on ASCII: tab to carriage return, the four separators
    [0x1c]-[0x1f], and the space. *)
Definition is_space (a : ascii) : bool :=
  in_range 9 13 a || in_range 28 31 a || (code a =? 32)%N.

Definition lower_char (a : ascii) : ascii :=
  if is_upper a then Ascii.ascii_of_N (code a + 32) else a.

(** [s.lower()] *)
Fixpoint lower (s : string) : string :=
  match s with
  | EmptyString => EmptyString
  | String a s' => String (lower_char a) (lower s')
  end.

Fixpoint lstrip (s : string) : string :=
  match s with
  | EmptyString => EmptyString
  | String a s' => if is_space a then lstrip s' else s
  end.

Fixpoint rstrip (s : string) : string :=
  match s with
  | EmptyString => EmptyString
  | String a s' =>
      match rstrip s' with
      | EmptyString => if is_space a then EmptyString else String a EmptyString
      | r => String a r
      end
  end.

(** [s.strip()] *)
Definition strip (s : string) : string := rstrip (lstrip s).

Fixpoint all_space (s : string) : bool :=
  match s with
  | EmptyString => true
  | String a s' => is_space a && all_space s'
  end.

(** No blank in front. *)
Definition starts_clean (s : string) : bool :=
  match s with
  | EmptyString => true
  | String a _ => negb (is_space a)
  end.

(** Regular expressions, matched by derivatives. *)
Inductive regex : Type :=
  | Fail
  | Eps
  | Class (p : ascii -> bool)
  | Cat (r1 r2 : regex)
  | Alt (r1 r2 : regex)
  | Star (r : regex).

Fixpoint nullable (r : regex) : bool :=
  match r with
  | Fail => false
  | Eps => true
  | Class _ => false
  | Cat r1 r2 => nullable r1 && nullable r2
  | Alt r1 r2 => nullable r1 || nullable r2
  | Star _ => true
  end.

Fixpoint deriv (a : ascii) (r : regex) : regex :=
  match r with
  | Fail | Eps => Fail
  | Class p => if p a then Eps else Fail
  | Cat r1 r2 =>
      if nullable r1
      then Alt (Cat (deriv a r1) r2) (deriv a r2)
      else Cat (deriv a r1) r2
  | Alt r1 r2 => Alt (deriv a r1) (deriv a r2)
  | Star r1 => Cat (deriv a r1) (Star r1)
  end.

(** [re.match(r, s)] for a pattern anchored at both ends. *)
Fixpoint matches (r : regex) (s : string) : bool :=
  match s with
  | EmptyString => nullable r
  | String a s' => matches (deriv a r) s'
  end.

Definition Plus (r : regex) : regex := Cat r (Star r).
Definition is_char (c : ascii) (a : ascii) : bool := (code a =? code c)%N.
Definition one_of (cs : string) (a : ascii) : bool :=
  existsb (fun c => is_char c a) (String.list_ascii_of_string cs).

(** Python's [$]: the end of the string, or just before a final newline. *)
Definition Dollar : regex := Alt Eps (Class (is_char "010"%char)).

End Text.

(** ** The backend contracts *)

Module Backend.
Import Text.

Record http_response : Type := Http {
  code : Z;
  body : Js.value
}.

Definition detail (c : Z) (msg : string) : http_response :=
  Http c (Js.Obj [("detail", Js.Str msg)]).

(** *** Users *)

Record User : Type := mkUser {
  user_id : string;
  email : string;
  hashed_password : string;
  first_name : option string;
  last_name : option string;
  is_active : bool;
  created_at : string;
  updated_at : string
}.

(** [email_regex] of [validate_email] (auth.py, as recorded in FINAL_FIX.md):
    [^[a-zA-Z0-9._%+-]+@[a-zA-Z0-9.-]+\.[a-zA-Z]{2,}$] *)
Definition local_char (a : ascii) : bool :=
  is_alpha a || is_digit a || one_of "._%+-" a.
Definition domain_char (a : ascii) : bool :=
  is_alpha a || is_digit a || one_of ".-" a.

Definition email_regex : regex :=
  Cat (Plus (Class local_char))
   (Cat (Class (is_char "@"%char))
    (Cat (Plus (Class domain_char))
     (Cat (Class (is_char "."%char))
      (Cat (Class is_alpha) (Cat (Class is_alpha)
        (Cat (Star (Class is_alpha)) Dollar)))))).

(** [validate_email], as FINAL_FIX.md shows it: lowercase, strip, match.
    [None] is the raised [ValueError]. On ASCII input this is the Python
    function; Python also lowercases and trims the letters and blanks of
    Unicode, which the strings of the model do not have. *)
Definition validate_email (email : string) : option string :=
  let email := strip (lower email) in
  if matches email_regex email then Some email else None.

(** The normalisation used by [PUT /me]: [.strip().lower()]. *)
Definition normalize_email (email : string) : string := lower (strip email).

Definition MIN_PASSWORD_LENGTH : nat := 6.

Definition opt_str (o : option string) : Js.value :=
  match o with
  | Some s => Js.Str s
  | None => Js.Null
  end.

(** The safe user dictionary returned by the endpoints. *)
Definition user_dict (u : User) : Js.value :=
  Js.Obj [("id", Js.Str (user_id u));
          ("email", Js.Str (email u));
          ("first_name", opt_str (first_name u));
          ("last_name", opt_str (last_name u));
          ("is_active", Js.Bool (is_active u));
          ("created_at", Js.Str (created_at u));
          ("updated_at", Js.Str (updated_at u))].

(** *** Tasks *)

Record Task : Type := mkTask {
  task_id : string;
  task_owner : string;
  title : string;
  description : option string;
  is_completed : bool;
  due_date : option string;
  priority_id : option string;
  task_created_at : string
}.

Record TaskPatch : Type := mkPatch {
  patch_title : option string;
  patch_description : option string;
  patch_is_completed : option bool;
  patch_due_date : option string;
  patch_priority_id : option string
}.

Definition task_dict (t : Task) : Js.value :=
  Js.Obj [("id", Js.Str (task_id t));
          ("user_id", Js.Str (task_owner t));
          ("title", Js.Str (title t));
          ("description", opt_str (description t));
          ("is_completed", Js.Bool (is_completed t));
          ("due_date", opt_str (due_date t));
          ("priority_id", opt_str (priority_id t));
          ("created_at", Js.Str (task_created_at t))].

(** *** Password reset tokens *)

Record PasswordResetToken : Type := mkToken {
  token_user : string;
  expires_at : Z;
  used : bool
}.

(** *** The store *)

Record db : Type := Db {
  users : list User;
  tasks : list Task;
  password_reset_tokens : gmap string PasswordResetToken
}.

Definition empty_db : db := Db [] [] ∅.

Definition with_users (us : list User) (d : db) : db :=
  Db us (tasks d) (password_reset_tokens d).
Definition with_tasks (ts : list Task) (d : db) : db :=
  Db (users d) ts (password_reset_tokens d).
Definition with_tokens (tk : gmap string PasswordResetToken) (d : db) : db :=
  Db (users d) (tasks d) tk.

Definition get_user_by_email (e : string) (d : db) : option User :=
  List.find (fun u => String.eqb (email u) e) (users d).

Definition get_user_by_id (i : string) (d : db) : option User :=
  List.find (fun u => String.eqb (user_id u) i) (users d).

(** *** Results of a request *)

Inductive result (A : Type) : Type :=
  | Success (code : Z) (payload : A)
  | Failure (code : Z) (detail : string).
Arguments Success {A} code payload.
Arguments Failure {A} code detail.

Definition status_code {A} (r : result A) : Z :=
  match r with Success c _ | Failure c _ => c end.

Record RegisterRequest : Type := mkRegister {
  reg_email : string;
  reg_password : string;
  reg_first_name : option string;
  reg_last_name : option string
}.

Record ProfileUpdate : Type := mkProfile {
  upd_email : option string;
  upd_first_name : option string;
  upd_last_name : option string
}.

Record CreateTaskRequest : Type := mkCreate {
  new_title : option string;
  new_description : option string;
  new_due_date : option string;
  new_priority_id : option string
}.

(** What the server draws for a request: an identifier, a salt or token,
    and the clock. *)
Record Fresh : Type := mkFresh {
  fresh_id : string;
  fresh_secret : string;
  now_text : string;
  now : Z
}.

Definition owned_by (caller tid : string) (t : Task) : bool :=
  String.eqb (task_id t) tid && String.eqb (task_owner t) caller.

Definition apply_patch (p : TaskPatch) (t : Task) : Task :=
  mkTask (task_id t) (task_owner t)
    (default (title t) (patch_title p))
    (match patch_description p with Some x => Some x | None => description t end)
    (default (is_completed t) (patch_is_completed p))
    (match patch_due_date p with Some x => Some x | None => due_date t end)
    (match patch_priority_id p with Some x => Some x | None => priority_id t end)
    (task_created_at t).

Definition set_completed (b : bool) (t : Task) : Task :=
  mkTask (task_id t) (task_owner t) (title t) (description t) b
    (due_date t) (priority_id t) (task_created_at t).

Definition set_hashed_password (h : string) (u : User) : User :=
  mkUser (user_id u) (email u) h (first_name u) (last_name u)
    (is_active u) (created_at u) (updated_at u).

Record TaskListResponse : Type := mkList {
  list_tasks_page : list Task;
  total : nat
}.

Section Handlers.

(** Library functions of the backend (bcrypt, JWT) and its settings. *)
Variable hash_password : string -> string -> string.
Variable verify_password : string -> string -> bool.
Variable create_access_token : string -> string.
Variable create_refresh_token : string -> string.
Variable password_is_strong : string -> bool.
Variable RESET_TOKEN_TTL : Z.

(** Modelled from the spec: [register] of [backend/src/api/v1/auth.py] is not
    among the sources. The steps follow section 4.1 of the specification and
    the registration flow recorded in REGISTRATION_FIX.md: validate the input,
    normalise the email, look for an existing user, hash, insert, answer with
    the public fields. The primary key rejects a repeated identifier. *)
Definition register (req : RegisterRequest) (f : Fresh) (d : db)
  : result Js.value * db :=
  match validate_email (reg_email req) with
  | None => (Failure 400 "Invalid email format", d)
  | Some e =>
      if (String.length (reg_password req) <? MIN_PASSWORD_LENGTH)%nat then
        (Failure 400 "Password must be at least 6 characters", d)
      else if bool_decide (is_Some (get_user_by_email e d)) then
        (Failure 409 "Email already registered", d)
      else if bool_decide (is_Some (get_user_by_id (fresh_id f) d)) then
        (Failure 500 "An unexpected error occurred", d)
      else
        let u := mkUser (fresh_id f) e
                   (hash_password (fresh_secret f) (reg_password req))
                   (strip <$> reg_first_name req)
                   (strip <$> reg_last_name req)
                   true (now_text f) (now_text f) in
        (Success 201
           (Js.Obj [("message",
                     Js.Str "User registered successfully. Please log in.");
                    ("user", user_dict u)]),
         with_users (users d ++ [u]) d)
  end.

(** Modelled from the spec: [login] of [auth.py] is not among the sources;
    section 4.1: normalise the email, look the user up, fail with the same
    authentication error when the user is absent or the password does not
    match, otherwise issue the token pair. The answer carries the user as
    the login example of REGISTRATION_FIX.md shows. *)
Definition login (e password : string) (d : db) : result Js.value :=
  match get_user_by_email (normalize_email e) d with
  | Some u =>
      if verify_password password (hashed_password u) then
        Success 200
          (Js.Obj [("access_token", Js.Str (create_access_token (email u)));
                   ("refresh_token", Js.Str (create_refresh_token (email u)));
                   ("token_type", Js.Str "bearer");
                   ("user", user_dict u)])
      else Failure 401 "Incorrect email or password"
  | None => Failure 401 "Incorrect email or password"
  end.


(** Modelled from the spec: [update_current_user_profile] of
    [backend/src/api/v1/users.py] is not among the sources. It follows the
    data model of the specification and the fix recorded for [PUT /me]: the
    email is normalised before the conflict check and the assignment, and the
    answer is the safe dictionary of [GET /me]. *)
Definition update_current_user_profile (caller : string) (p : ProfileUpdate)
    (f : Fresh) (d : db) : result Js.value * db :=
  match get_user_by_id caller d with
  | None => (Failure 401 "Could not validate credentials", d)
  | Some u =>
      let e := match upd_email p with
               | Some e => normalize_email e
               | None => email u
               end in
      if negb (String.eqb e (email u)) &&
         bool_decide (is_Some (get_user_by_email e d)) then
        (Failure 409 "Email already registered", d)
      else
        let u' := mkUser (user_id u) e (hashed_password u)
                    (match upd_first_name p with
                     | Some x => Some x | None => first_name u end)
                    (match upd_last_name p with
                     | Some x => Some x | None => last_name u end)
                    (is_active u) (created_at u) (now_text f) in
        (Success 200 (Js.Obj [("user", user_dict u')]),
         with_users
           (List.map (fun x => if String.eqb (user_id x) caller then u' else x)
              (users d)) d)
  end.

(** Modelled from the spec: the [forgot-password] handler of
    [password_reset.py] is not among the sources. A token tied to the user
    and an expiry is stored; the answer does not say whether the email is
    registered (password-reset test log); the token column is unique. *)
Definition forgot_password (e : string) (f : Fresh) (d : db)
  : result Js.value * db :=
  let answer :=
    Success 200
      (Js.Obj [("message",
                Js.Str "If the email exists, a reset link has been sent")]) in
  match get_user_by_email (normalize_email e) d with
  | Some u =>
      match password_reset_tokens d !! fresh_secret f with
      | Some _ => (Failure 500 "An unexpected error occurred", d)
      | None =>
          (answer,
           with_tokens
             (<[fresh_secret f :=
                  mkToken (user_id u) (now f + RESET_TOKEN_TTL)%Z false]>
                (password_reset_tokens d)) d)
      end
  | None => (answer, d)
  end.

(** Modelled from the spec: the [reset-password] handler of
    [password_reset.py] is not among the sources. Section 3: a token is
    redeemed at most once and only before its expiry; redeeming stores the
    new hash and marks the token used. Unknown, used and expired tokens, and
    weak passwords, are answered 400 as the password-reset test log
    records. *)
Definition reset_password (tok new_password : string) (f : Fresh) (d : db)
  : result Js.value * db :=
  match password_reset_tokens d !! tok with
  | None => (Failure 400 "Invalid or expired reset token", d)
  | Some t =>
      if used t || (expires_at t <=? now f)%Z then
        (Failure 400 "Invalid or expired reset token", d)
      else if negb (password_is_strong new_password) then
        (Failure 400 "Password does not meet strength requirements", d)
      else
        let h := hash_password (fresh_secret f) new_password in
        (Success 200
           (Js.Obj [("message", Js.Str "Password has been reset")]),
         Db (List.map (fun u => if String.eqb (user_id u) (token_user t)
                                then set_hashed_password h u else u)
               (users d))
            (tasks d)
            (<[tok := mkToken (token_user t) (expires_at t) true]>
               (password_reset_tokens d)))
  end.

(** Modelled from the spec: [create] of the task service
    ([backend/src/api/v1/tasks.py], not among the sources); section 4.3: a
    title is required, the task belongs to the caller. *)
Definition create_task (caller : string) (req : CreateTaskRequest)
    (f : Fresh) (d : db) : result Task * db :=
  match new_title req with
  | None => (Failure 422 "title is required", d)
  | Some ttl =>
      let t := mkTask (fresh_id f) caller ttl (new_description req) false
                 (new_due_date req) (new_priority_id req) (now_text f) in
      (Success 201 t, with_tasks (tasks d ++ [t]) d)
  end.

Definition matching (caller : string) (completed : option bool) (t : Task)
  : bool :=
  String.eqb (task_owner t) caller &&
  match completed with
  | Some b => Bool.eqb (is_completed t) b
  | None => true
  end.

(** Modelled from the spec: [list] of the task service (not among the
    sources); section 4.3: the caller's tasks, filtered by completion state,
    cut by offset and limit. Sorting does not change which tasks match and is
    left out. The [total] of [TaskListResponse] is [len(current_page_tasks)],
    as the dashboard test log of the repository records for the code. *)
Definition list_tasks (caller : string) (completed : option bool)
    (offset limit : nat) (d : db) : TaskListResponse :=
  let page :=
    take limit (drop offset (List.filter (matching caller completed) (tasks d)))
  in mkList page (length page).

(** The same answer with the [total] the specification asks for: the size
    of the matching set. *)
Definition list_tasks_spec (caller : string) (completed : option bool)
    (offset limit : nat) (d : db) : TaskListResponse :=
  let all := List.filter (matching caller completed) (tasks d) in
  mkList (take limit (drop offset all)) (length all).

(** Modelled from the spec: the single-task operations of the task service
    (not among the sources); sections 4.2 and 4.3. Each looks the task up by
    identifier and owner together, so a task of another user is not found. *)
Definition get_task (caller tid : string) (d : db) : result Task :=
  match List.find (owned_by caller tid) (tasks d) with
  | Some t => Success 200 t
  | None => Failure 404 "Task not found"
  end.

(** Modelled from the spec: [update(id, patch)]; fields omitted from the
    patch are left unchanged. *)
Definition update_task (caller tid : string) (p : TaskPatch) (d : db)
  : result Task * db :=
  match List.find (owned_by caller tid) (tasks d) with
  | Some t =>
      (Success 200 (apply_patch p t),
       with_tasks
         (List.map (fun x => if owned_by caller tid x then apply_patch p x
                             else x) (tasks d)) d)
  | None => (Failure 404 "Task not found", d)
  end.

(** Modelled from the spec: [delete(id)]. *)
Definition delete_task (caller tid : string) (d : db) : result unit * db :=
  match List.find (owned_by caller tid) (tasks d) with
  | Some _ =>
      (Success 204 (),
       with_tasks
         (List.filter (fun x => negb (owned_by caller tid x)) (tasks d)) d)
  | None => (Failure 404 "Task not found", d)
  end.

(** Modelled from the spec: [toggleComplete(id, completed)] sets the
    completion flag of the caller's task to the given value. *)
Definition toggle_complete (caller tid : string) (completed : bool) (d : db)
  : result Task * db :=
  match List.find (owned_by caller tid) (tasks d) with
  | Some t =>
      (Success 200 (set_completed completed t),
       with_tasks
         (List.map (fun x => if owned_by caller tid x
                             then set_completed completed x else x)
            (tasks d)) d)
  | None => (Failure 404 "Task not found", d)
  end.

(** Modelled from the spec: the [PATCH /tasks/{id}/complete] route (not
    among the sources) reads [is_completed] from the JSON body
    ([ToggleCompleteRequest], as the route-fix log records). *)
Definition patch_complete (caller tid : string) (request_body : Js.value)
    (d : db) : result Task * db :=
  match Js.get "is_completed" request_body with
  | Some (Js.Bool b) => toggle_complete caller tid b d
  | _ => (Failure 422 "is_completed: field required", d)
  end.

(** *** The backend as a state machine *)

Inductive op : Type :=
  | Register (req : RegisterRequest) (f : Fresh)
  | UpdateProfile (caller : string) (p : ProfileUpdate) (f : Fresh)
  | ForgotPassword (e : string) (f : Fresh)
  | ResetPassword (tok new_password : string) (f : Fresh)
  | CreateTask (caller : string) (req : CreateTaskRequest) (f : Fresh)
  | UpdateTask (caller tid : string) (p : TaskPatch)
  | DeleteTask (caller tid : string)
  | ToggleComplete (caller tid : string) (completed : bool).

Definition step (o : op) (d : db) : db :=
  match o with
  | Register req f => snd (register req f d)
  | UpdateProfile caller p f => snd (update_current_user_profile caller p f d)
  | ForgotPassword e f => snd (forgot_password e f d)
  | ResetPassword tok pw f => snd (reset_password tok pw f d)
  | CreateTask caller req f => snd (create_task caller req f d)
  | UpdateTask caller tid p => snd (update_task caller tid p d)
  | DeleteTask caller tid => snd (delete_task caller tid d)
  | ToggleComplete caller tid b => snd (toggle_complete caller tid b d)
  end.

Definition run (ops : list op) (d : db) : db :=
  fold_left (fun d o => step o d) ops d.

End Handlers.

(** *** Notions used to state the contracts *)

(** [e'] is [e] up to the case of its letters and surrounding blanks. *)
Definition email_variant (e e' : string) : Prop :=
  exists p core q p' core' q',
    e = p +:+ core +:+ q /\ e' = p' +:+ core' +:+ q' /\
    all_space p = true /\ all_space q = true /\
    all_space p' = true /\ all_space q' = true /\
    lower core = lower core'.



(** A token that has been redeemed. *)
Definition spent (tok : string) (d : db) : Prop :=
  exists t, password_reset_tokens d !! tok = Some t /\ used t = true.

(** The tasks a caller can see. *)
Definition own_tasks (caller : string) (d : db) : list Task :=
  List.filter (fun t => String.eqb (task_owner t) caller) (tasks d).

End Backend.

(** ** A concrete server and session, used to run the client *)

Module Scenario.
Import Client.

(** A server that accepts only the access token ["a2"]; its refresh endpoint
    issues ["a2"] and no new refresh token. *)
Definition strict_server (history : list call) (e : call) : transport :=
  match e with
  | ViaAxios _ =>
      Answer (Response 200 (Js.Obj [("access_token", Js.Str "a2")]))
  | ViaClient c =>
      if bool_decide (headers c !! "Authorization" = Some "Bearer a2")
      then Answer (Response 200 (Js.Obj []))
      else Answer (Response 401 Js.Null)
  end.


(** A browser holding an expired access token and a refresh token. *)
Definition stale_session : world :=
  World (<["refresh_token" := "r1"]> (<["access_token" := "a1"]> ∅))
        "/dashboard" [].

(** A browser that has never logged in. *)
Definition fresh_browser : world := World ∅ "/auth/login" [].

Definition list_tasks_request : config := taskApi.getTasks Js.Undefined.


(** Stand-ins for the backend's library functions. *)
Definition demo_hash (salt password : string) : string :=
  "$2b$" +:+ salt +:+ "$" +:+ password.
Definition demo_strong (password : string) : bool :=
  (8 <=? String.length password)%nat.
Definition DEMO_TTL : Z := 3600.

Definition at_time (i secret : string) (t : Z) : Backend.Fresh :=
  Backend.mkFresh i secret "2026-02-15T10:00:00" t.

Definition first_registration : Backend.RegisterRequest :=
  Backend.mkRegister "user@x.com" "pw123456" (Some "Ann") None.

(** The store after [user@x.com] has registered. *)
Definition registered_db : Backend.db :=
  snd (Backend.register demo_hash first_registration
         (at_time "u1" "salt1" 0) Backend.empty_db).

(** ... and has asked for a password reset token. *)
Definition reset_requested_db : Backend.db :=
  snd (Backend.forgot_password DEMO_TTL "user@x.com"
         (at_time "" "reset-token-1" 100) registered_db).

Definition titled (t : string) : Backend.CreateTaskRequest :=
  Backend.mkCreate (Some t) None None None.

(** User [u1] creates five tasks; user [u2] creates one. *)
Definition six_tasks_db : Backend.db :=
  Backend.run demo_hash demo_strong DEMO_TTL
    [Backend.CreateTask "u1" (titled "A") (at_time "t1" "" 1);
     Backend.CreateTask "u1" (titled "B") (at_time "t2" "" 2);
     Backend.CreateTask "u1" (titled "C") (at_time "t3" "" 3);
     Backend.CreateTask "u1" (titled "D") (at_time "t4" "" 4);
     Backend.CreateTask "u1" (titled "E") (at_time "t5" "" 5);
     Backend.CreateTask "u2" (titled "F") (at_time "t6" "" 6)]
    Backend.empty_db.

Definition rename_patch : Backend.TaskPatch :=
  Backend.mkPatch (Some "renamed") None None None None.


(** A server that answers every request with 401. *)
Definition rejecting_server (history : list call) (e : call) : transport :=
  Answer (Response 401 (Js.Obj [("detail", Js.Str "Not authenticated")])).

(** The stale session of a browser that also stores a display setting. *)
Definition themed_session : world :=
  World (<["theme" := "dark"]> (localStorage stale_session))
        "/dashboard" [].

(** A server whose refresh endpoint issues a new pair of tokens, and which
    answers every other request with 401 all the same. *)
Definition stubborn_server (history : list call) (e : call) : transport :=
  match e with
  | ViaAxios _ =>
      Answer (Response 200 (Js.Obj [("access_token", Js.Str "a2");
                                    ("refresh_token", Js.Str "r2")]))
  | ViaClient _ => Answer (Response 401 Js.Null)
  end.




End Scenario.

(** ** The dashboard page ([DashboardPage], the page component that uses
    [taskApi])

    The state kept by [useState], and the handlers the page passes to its
    modals and to the task table. The outcome of an awaited request is an
    argument of the handler, and a handler together with the settlement of
    its request is one step. The lists of priorities and tags, which only
    [fetchMetadata] writes, are left out with it. *)

Module Dashboard.

Record Task : Type := mkTask { id : string; title : string }.

Record state : Type := mkState {
  showTaskModal : bool;
  editingTask : option Task;
  deletingTask : option Task;
  showViewAllModal : bool;
  refreshTrigger : nat
}.

(** The values given to [useState]. *)
Definition initial : state := mkState false None None false 0.

(** What a handler sends, and whether the request succeeded. *)
Definition sent : Type := (Client.config * bool)%type.

(** [confirmDelete] (lines 76-85): nothing without a task to delete; the
    dialog closes and the list refreshes only when the request succeeds. *)
Definition confirmDelete (ok : bool) (st : state) : state * list sent :=
  match deletingTask st with
  | None => (st, [])
  | Some t =>
      let req := Client.taskApi.deleteTask (id t) in
      if ok then
        (mkState (showTaskModal st) (editingTask st) None
           (showViewAllModal st) (refreshTrigger st + 1),
         [(req, true)])
      else (st, [(req, false)])
  end.

(** [handleFormSubmit] (lines 87-101): an update of the task being edited,
    or else a creation; on failure the error is thrown again and the state
    stays. *)
Definition handleFormSubmit (taskData : Js.value) (ok : bool) (st : state)
  : state * list sent :=
  let req :=
    match editingTask st with
    | Some t => Client.taskApi.updateTask (id t) taskData
    | None => Client.taskApi.createTask taskData
    end in
  if ok then
    (mkState false None (deletingTask st) (showViewAllModal st)
       (refreshTrigger st + 1),
     [(req, true)])
  else (st, [(req, false)]).


Inductive event : Type :=
  | AddTask
  | EditTask (t : Task)
  | AskDelete (t : Task)
  | CloseTaskModal
  | CloseDeleteModal
  | ConfirmDelete (ok : bool)
  | SubmitForm (taskData : Js.value) (ok : bool)
  | OpenViewAll
  | CloseViewAll.

(** One user action (lines 173-247). *)
Definition step (e : event) (st : state) : state * list sent :=
  match e with
  | AddTask =>
      (mkState true None (deletingTask st) (showViewAllModal st)
         (refreshTrigger st), [])
  | EditTask t =>
      (mkState true (Some t) (deletingTask st) (showViewAllModal st)
         (refreshTrigger st), [])
  | AskDelete t =>
      (mkState (showTaskModal st) (editingTask st) (Some t)
         (showViewAllModal st) (refreshTrigger st), [])
  | CloseTaskModal =>
      (mkState false None (deletingTask st) (showViewAllModal st)
         (refreshTrigger st), [])
  | CloseDeleteModal =>
      (mkState (showTaskModal st) (editingTask st) None
         (showViewAllModal st) (refreshTrigger st), [])
  | ConfirmDelete ok => confirmDelete ok st
  | SubmitForm taskData ok => handleFormSubmit taskData ok st
  | OpenViewAll =>
      (mkState (showTaskModal st) (editingTask st) (deletingTask st) true
         (refreshTrigger st), [])
  | CloseViewAll =>
      (mkState (showTaskModal st) (editingTask st) (deletingTask st) false
         (refreshTrigger st), [])
  end.

Fixpoint run (es : list event) (st : state) : state * list sent :=
  match es with
  | [] => (st, [])
  | e :: es' =>
      let '(st1, out1) := step e st in
      let '(st2, out2) := run es' st1 in
      (st2, (out1 ++ out2)%list)
  end.

(** The greeting (line 164): [user?.first_name || user?.email?.split('@')[0]].
    [None] is [undefined]. *)
Record user : Type := mkUser {
  first_name : option string;
  email : option string
}.

(** [s.split(c)[0]] *)
Fixpoint split_head (c : ascii) (s : string) : string :=
  match s with
  | EmptyString => EmptyString
  | String a s' =>
      if Text.is_char c a then EmptyString else String a (split_head c s')
  end.

Definition displayName (u : option user) : option string :=
  match u with
  | None => None
  | Some u =>
      if Client.truthy_item (first_name u) then first_name u
      else split_head "@" <$> email u
  end.

End Dashboard.

(** ** What a regular expression denotes, and counting characters *)

Module TextSpec.
Import Text.

(** Concatenations of words of [L]. *)
Inductive star (L : string -> Prop) : string -> Prop :=
  | star_nil : star L ""
  | star_cons (s1 s2 : string) : L s1 -> star L s2 -> star L (s1 +:+ s2).

(** The language of a regular expression. *)
Fixpoint lang (r : regex) (s : string) : Prop :=
  match r with
  | Fail => False
  | Eps => s = ""
  | Class p => exists a, s = String a "" /\ p a = true
  | Cat r1 r2 => exists s1 s2, s = s1 +:+ s2 /\ lang r1 s1 /\ lang r2 s2
  | Alt r1 r2 => lang r1 s \/ lang r2 s
  | Star r1 => star (lang r1) s
  end.

(** Every character of [s] satisfies [p]. *)
Fixpoint all_chars (p : ascii -> bool) (s : string) : bool :=
  match s with
  | EmptyString => true
  | String a s' => p a && all_chars p s'
  end.

(** How often [c] occurs in [s]. *)
Fixpoint count_char (c : ascii) (s : string) : nat :=
  match s with
  | EmptyString => 0
  | String a s' => (if is_char c a then 1 else 0) + count_char c s'
  end.

(** [s.isascii()] *)
Definition is_ascii (s : string) : bool :=
  all_chars (fun a => (code a <? 128)%N) s.

Definition newline : string := String "010"%char "".

End TextSpec.

(** ** What a run of the client leaves behind *)

Module ClientRuns.
Import Client.

Section WithEnvironment.

Variable env : option string.
Variable net : list call -> call -> transport.

Local Abbreviation dispatch := (Client.dispatch net).
Local Abbreviation first_request := (Client.first_request env).
Local Abbreviation refresh_request := (Client.refresh_request env).
Local Abbreviation after_first := (Client.after_first env).
Local Abbreviation after_refresh := (Client.after_refresh env).
Local Abbreviation retried_request := (Client.retried_request env).

(** The three ways a run can end: settled after the first exchange with the
    browser state untouched; rejected through the [catch] block; or settled
    by the request sent again after the tokens were stored. *)
Inductive ending (c : config) (w : world) (r : settled) (w' : world) : Prop :=
  | Direct :
      (r, w') = dispatch ViaClient (first_request c w) w ->
      ending c w r w'
  | Caught (e : error) (w1 : world) :
      r = Rejected e ->
      w' = snd (catch_refreshError e w1) ->
      localStorage w1 = localStorage w ->
      (calls w1 = (calls w ++ [ViaClient (first_request c w)])%list \/
       calls w1 = (calls w ++ [ViaClient (first_request c w);
                              ViaAxios (refresh_request
                                 (default "" (getItem "refresh_token" w)))])%list) ->
      ending c w r w'
  | Retried (a b : Js.value) :
      let w3 := store_tokens a b (after_refresh c w) in
      let c3 := first_request (retried_request a c w) w3 in
      (r, w') = dispatch ViaClient c3 w3 ->
      ending c w r w'.

End WithEnvironment.

End ClientRuns.

(** * Facts about lowercasing and trimming *)

Module TextFacts.
Import Text.

Ltac all_chars a := destruct a as [[] [] [] [] [] [] [] []]; reflexivity.

Lemma is_space_lower_char a : is_space (lower_char a) = is_space a.
Proof. all_chars a. Qed.

Lemma lower_char_idem a : lower_char (lower_char a) = lower_char a.
Proof. all_chars a. Qed.

Lemma app_cons a s t : String a s +:+ t = String a (s +:+ t).
Proof. reflexivity. Qed.

Lemma app_empty_r s : s +:+ "" = s.
Proof. induction s as [|a s IH]; [done|]. by rewrite app_cons, IH. Qed.

Lemma lower_app s t : lower (s +:+ t) = lower s +:+ lower t.
Proof.
  induction s as [|a s IH]; [done|]. rewrite ?app_cons; simpl.
  by rewrite IH.
Qed.

Lemma lower_idem s : lower (lower s) = lower s.
Proof.
  induction s as [|a s IH]; [done|]. simpl. by rewrite lower_char_idem, IH.
Qed.

Lemma all_space_lower s : all_space (lower s) = all_space s.
Proof.
  induction s as [|a s IH]; [done|]. simpl.
  by rewrite is_space_lower_char, IH.
Qed.

Lemma lower_lstrip s : lower (lstrip s) = lstrip (lower s).
Proof.
  induction s as [|a s IH]; [done|]. simpl. rewrite is_space_lower_char.
  by destruct (is_space a).
Qed.

Lemma lower_eq_empty s : lower s = "" <-> s = "".
Proof. by destruct s. Qed.

Lemma lower_rstrip s : lower (rstrip s) = rstrip (lower s).
Proof.
  induction s as [|a s IH]; [done|]. simpl. rewrite is_space_lower_char.
  rewrite <- IH. destruct (rstrip s) as [|b r]; simpl; [|done].
  by destruct (is_space a).
Qed.

Lemma lower_strip s : lower (strip s) = strip (lower s).
Proof. unfold strip. by rewrite lower_rstrip, lower_lstrip. Qed.

(** Leading and trailing blanks do not survive [strip]. *)
Lemma lstrip_spaces p s : all_space p = true -> lstrip (p +:+ s) = lstrip s.
Proof.
  induction p as [|a p IH]; [done|]. simpl.
  intros [Ha Hp]%andb_true_iff. rewrite Ha. auto.
Qed.

Lemma rstrip_all_space q : all_space q = true -> rstrip q = "".
Proof.
  induction q as [|a q IH]; [done|]. simpl.
  intros [Ha Hq]%andb_true_iff. by rewrite IH, Ha.
Qed.

Lemma rstrip_spaces s q : all_space q = true -> rstrip (s +:+ q) = rstrip s.
Proof.
  intros Hq. induction s as [|a s IH]; simpl.
  - by apply rstrip_all_space.
  - rewrite ?app_cons; simpl. by rewrite IH.
Qed.

Lemma lstrip_all_space q : all_space q = true -> lstrip q = "".
Proof.
  induction q as [|a q IH]; [done|]. simpl.
  intros [Ha Hq]%andb_true_iff. rewrite Ha. auto.
Qed.

Lemma strip_spaces_r s q : all_space q = true -> strip (s +:+ q) = strip s.
Proof.
  intros Hq. unfold strip. induction s as [|a s IH]; simpl.
  - change ("" +:+ q) with q. by rewrite lstrip_all_space.
  - rewrite ?app_cons; simpl. destruct (is_space a); [done|].
    change (String a (s +:+ q)) with (String a s +:+ q).
    by apply rstrip_spaces.
Qed.

Lemma strip_spaces p s q :
  all_space p = true -> all_space q = true ->
  strip (p +:+ s +:+ q) = strip s.
Proof.
  intros Hp Hq. unfold strip. rewrite lstrip_spaces by done.
  by apply strip_spaces_r.
Qed.

(** [strip] is idempotent. *)
Lemma starts_clean_lstrip s : starts_clean (lstrip s) = true.
Proof.
  induction s as [|a s IH]; [done|]. simpl.
  destruct (is_space a) eqn:E; [done|]. simpl. by rewrite E.
Qed.

Lemma lstrip_clean s : starts_clean s = true -> lstrip s = s.
Proof. destruct s as [|a s]; [done|]. simpl. by destruct (is_space a). Qed.

Lemma starts_clean_rstrip s :
  starts_clean s = true -> starts_clean (rstrip s) = true.
Proof.
  destruct s as [|a s]; [done|]. simpl. intros Ha.
  destruct (rstrip s); simpl; [|done].
  destruct (is_space a) eqn:E; simpl; by rewrite ?E.
Qed.

Lemma rstrip_idem s : rstrip (rstrip s) = rstrip s.
Proof.
  induction s as [|a s IH]; [done|]. simpl.
  destruct (rstrip s) as [|b r] eqn:E.
  - destruct (is_space a) eqn:Ha; [done|]. simpl. by rewrite Ha.
  - simpl in *. rewrite IH. done.
Qed.

Lemma strip_idem s : strip (strip s) = strip s.
Proof.
  unfold strip. rewrite (lstrip_clean (rstrip (lstrip s))).
  - apply rstrip_idem.
  - apply starts_clean_rstrip, starts_clean_lstrip.
Qed.

End TextFacts.

(** * Facts about the client *)

Module ClientFacts.
Import Client.

Section WithEnvironment.

Variable env : option string.
Variable net : list call -> call -> transport.

Local Abbreviation apiClient := (Client.apiClient env net).
Local Abbreviation dispatch := (Client.dispatch net).
Local Abbreviation first_request := (Client.first_request env).
Local Abbreviation response_rejected := (Client.response_rejected env net).
Local Abbreviation refresh_request := (Client.refresh_request env).
Local Abbreviation refresh_succeeds := (Client.refresh_succeeds env net).
Local Abbreviation after_first := (Client.after_first env).
Local Abbreviation after_refresh := (Client.after_refresh env).
Local Abbreviation retried_request := (Client.retried_request env).

(** ** One exchange *)

Lemma dispatch_world mk c w :
  snd (dispatch mk c w) = record_call (mk c) w.
Proof.
  unfold Client.dispatch. destruct (net (calls w) (mk c)) as [r|]; [|done].
  by destruct (validateStatus (status r)).
Qed.

Lemma dispatch_rejected mk c w e :
  fst (dispatch mk c w) = Rejected e -> exists resp, e = AxiosError c resp.
Proof.
  unfold Client.dispatch. destruct (net (calls w) (mk c)) as [r|]; simpl.
  - destruct (validateStatus (status r)); simpl; [done|].
    intros [= <-]. eauto.
  - intros [= <-]. eauto.
Qed.

Lemma dispatch_cases mk c w :
  (exists r, dispatch mk c w = (Resolved r, record_call (mk c) w)) \/
  (exists resp,
      dispatch mk c w = (Rejected (AxiosError c resp), record_call (mk c) w)).
Proof.
  pose proof (dispatch_world mk c w) as Hw.
  destruct (dispatch mk c w) as [[r|e] w1] eqn:E; simpl in Hw; subst w1.
  - left. eauto.
  - right. destruct (dispatch_rejected mk c w e) as [resp ->]; [by rewrite E|].
    eauto.
Qed.

Lemma retry_first_request c w : _retry (first_request c w) = _retry c.
Proof.
  unfold Client.first_request, request_interceptor.
  by destruct (truthy_item (getItem "access_token" w)).
Qed.

Lemma apiClient_S n c w :
  apiClient (S n) c w =
  match dispatch ViaClient (first_request c w) w with
  | (Resolved r, w1) => Some (Resolved r, w1)
  | (Rejected e, w1) => response_rejected (apiClient n) e w1
  end.
Proof. reflexivity. Qed.

(** A request that already carries [_retry] goes through exactly one
    exchange, whatever the answer. *)
Lemma apiClient_retried n c w :
  _retry c = true ->
  apiClient (S n) c w = Some (dispatch ViaClient (first_request c w) w).
Proof.
  intros Hr. rewrite apiClient_S.
  destruct (dispatch_cases ViaClient (first_request c w) w)
    as [[r ->]|[resp ->]]; [done|].
  simpl. rewrite retry_first_request, Hr. by rewrite andb_false_r.
Qed.

(** The interceptor hands [retry] only requests that carry [_retry]. *)
Lemma response_rejected_ext retry1 retry2 e w :
  (forall c' w', _retry c' = true -> retry1 c' w' = retry2 c' w') ->
  response_rejected retry1 e w = response_rejected retry2 e w.
Proof.
  intros Hext. destruct e as [c resp|msg]; [|done]. simpl.
  destruct (status_is_401 resp && negb (_retry c)); [|done].
  destruct (negb (truthy_item (getItem "refresh_token" w))); [done|].
  destruct (axios_post net _ _ w) as [[r|e] w1]; [|done].
  destruct (Js.get "access_token" (rdata r)) as [at_|]; [|done].
  destruct (Js.get "refresh_token" (rdata r)) as [nrt|]; [|done].
  by apply Hext.
Qed.

(** Two units of fuel are always enough: the result does not depend on any
    further fuel. *)
Lemma apiClient_fuel n c w : apiClient (S (S n)) c w = apiClient 2 c w.
Proof.
  rewrite (apiClient_S (S n)), (apiClient_S 1).
  destruct (dispatch ViaClient _ w) as [[r|e] w1]; [done|].
  apply response_rejected_ext. intros c' w' Hr.
  by rewrite !apiClient_retried.
Qed.

(** ** The shape of a run

    [apiClient] either settles after its first exchange, or goes through the
    refresh step; the equations below cover every path of the interceptor. *)

Lemma run_resolved n c w r :
  dispatch ViaClient (first_request c w) w = (Resolved r, after_first c w) ->
  apiClient (S n) c w = Some (Resolved r, after_first c w).
Proof. intros E. by rewrite apiClient_S, E. Qed.

Lemma run_passed_on n c w resp :
  dispatch ViaClient (first_request c w) w
  = (Rejected (AxiosError (first_request c w) resp), after_first c w) ->
  status_is_401 resp && negb (_retry c) = false ->
  apiClient (S n) c w
  = Some (Rejected (AxiosError (first_request c w) resp), after_first c w).
Proof.
  intros E H. rewrite apiClient_S, E. simpl.
  by rewrite retry_first_request, H.
Qed.

Lemma run_no_refresh_token n c w resp :
  dispatch ViaClient (first_request c w) w
  = (Rejected (AxiosError (first_request c w) resp), after_first c w) ->
  status_is_401 resp && negb (_retry c) = true ->
  truthy_item (getItem "refresh_token" w) = false ->
  apiClient (S n) c w
  = Some (catch_refreshError (JsError "No refresh token available")
            (after_first c w)).
Proof.
  intros E H Ht. rewrite apiClient_S, E. simpl.
  rewrite retry_first_request, H.
  change (getItem "refresh_token" (after_first c w))
    with (getItem "refresh_token" w).
  by rewrite Ht.
Qed.

Lemma run_refresh_failed n c w resp e :
  dispatch ViaClient (first_request c w) w
  = (Rejected (AxiosError (first_request c w) resp), after_first c w) ->
  status_is_401 resp && negb (_retry c) = true ->
  truthy_item (getItem "refresh_token" w) = true ->
  dispatch ViaAxios
    (refresh_request (default "" (getItem "refresh_token" w)))
    (after_first c w)
  = (Rejected e, after_refresh c w) ->
  apiClient (S n) c w = Some (catch_refreshError e (after_refresh c w)).
Proof.
  intros E H Ht E2. rewrite apiClient_S, E. simpl.
  rewrite retry_first_request, H.
  change (getItem "refresh_token" (after_first c w))
    with (getItem "refresh_token" w).
  rewrite Ht. simpl. unfold axios_post.
  fold (refresh_request (default "" (getItem "refresh_token" w))).
  by rewrite E2.
Qed.

Lemma run_refresh_malformed n c w resp r :
  dispatch ViaClient (first_request c w) w
  = (Rejected (AxiosError (first_request c w) resp), after_first c w) ->
  status_is_401 resp && negb (_retry c) = true ->
  truthy_item (getItem "refresh_token" w) = true ->
  dispatch ViaAxios
    (refresh_request (default "" (getItem "refresh_token" w)))
    (after_first c w)
  = (Resolved r, after_refresh c w) ->
  Js.get "access_token" (rdata r) = None ->
  apiClient (S n) c w
  = Some (catch_refreshError (JsError "Cannot destructure response.data")
            (after_refresh c w)).
Proof.
  intros E H Ht E2 Hd. rewrite apiClient_S, E. simpl.
  rewrite retry_first_request, H.
  change (getItem "refresh_token" (after_first c w))
    with (getItem "refresh_token" w).
  rewrite Ht. simpl. unfold axios_post.
  fold (refresh_request (default "" (getItem "refresh_token" w))).
  by rewrite E2, Hd.
Qed.

Lemma run_refresh_retried n c w resp r access_token newRefreshToken :
  dispatch ViaClient (first_request c w) w
  = (Rejected (AxiosError (first_request c w) resp), after_first c w) ->
  status_is_401 resp && negb (_retry c) = true ->
  truthy_item (getItem "refresh_token" w) = true ->
  dispatch ViaAxios
    (refresh_request (default "" (getItem "refresh_token" w)))
    (after_first c w)
  = (Resolved r, after_refresh c w) ->
  Js.get "access_token" (rdata r) = Some access_token ->
  Js.get "refresh_token" (rdata r) = Some newRefreshToken ->
  let w3 := store_tokens access_token newRefreshToken (after_refresh c w) in
  let c2 := retried_request access_token c w in
  apiClient (S (S n)) c w
  = Some (dispatch ViaClient (first_request c2 w3) w3).
Proof.
  intros E H Ht E2 Ha Hn w3 c2. rewrite apiClient_S, E. simpl.
  rewrite retry_first_request, H.
  change (getItem "refresh_token" (after_first c w))
    with (getItem "refresh_token" w).
  rewrite Ht. simpl. unfold axios_post.
  fold (refresh_request (default "" (getItem "refresh_token" w))).
  rewrite E2, Ha, Hn.
  change (apiClient (S n) c2 w3 = Some (dispatch ViaClient (first_request c2 w3) w3)).
  apply apiClient_retried. done.
Qed.

(** ** Bookkeeping on worlds *)

Lemma status_401_rejected r :
  status r = 401%Z -> validateStatus (status r) = false.
Proof. intros ->. reflexivity. Qed.

Lemma dispatch_401 mk c w r :
  net (calls w) (mk c) = Answer r -> status r = 401%Z ->
  dispatch mk c w = (Rejected (AxiosError c (Some r)), record_call (mk c) w).
Proof.
  intros E H. unfold Client.dispatch. by rewrite E, status_401_rejected.
Qed.

Lemma get_None k k' v : Js.get k v = None -> Js.get k' v = None.
Proof. by destruct v. Qed.

Lemma calls_store_tokens a b w : calls (store_tokens a b w) = calls w.
Proof. unfold store_tokens. by destruct (Js.truthy b). Qed.

Lemma catch_refreshError_clears e w :
  let w' := snd (catch_refreshError e w) in
  getItem "access_token" w' = None /\
  getItem "refresh_token" w' = None /\
  location_href w' = "/auth/login" /\
  exists e', fst (catch_refreshError e w) = Rejected e'.
Proof.
  unfold getItem. simpl. repeat split.
  - rewrite lookup_delete_ne by done. apply lookup_delete_eq.
  - apply lookup_delete_eq.
  - eauto.
Qed.

Lemma truthy_item_Some o :
  truthy_item o = true -> exists s, o = Some s /\ s <> "".
Proof.
  destruct o as [s|]; [|done]. simpl. intros H. exists s. split; [done|].
  intros ->. done.
Qed.

Lemma first_request_same c w :
  method (first_request c w) = method c /\ url (first_request c w) = url c /\
  params (first_request c w) = params c /\ data (first_request c w) = data c.
Proof.
  unfold Client.first_request, request_interceptor.
  by destruct (truthy_item (getItem "access_token" w)).
Qed.

(** ** At most one refresh-and-retry cycle *)

(** The transport's answer behind a settled exchange. *)
Lemma dispatch_net mk c w :
  dispatch mk c w
  = (match net (calls w) (mk c) with
     | NoResponse => Rejected (AxiosError c None)
     | Answer r =>
         if validateStatus (status r) then Resolved r
         else Rejected (AxiosError c (Some r))
     end, record_call (mk c) w).
Proof.
  unfold Client.dispatch. destruct (net (calls w) (mk c)) as [r|]; [|done].
  by destruct (validateStatus (status r)).
Qed.

Lemma truthy_item_false o s :
  truthy_item o = false -> o = Some s -> s = "".
Proof.
  intros H ->. simpl in H. by destruct (String.eqb_spec s "").
Qed.

(** C2. Whatever the server answers, [apiClient] settles with two units of
    fuel; it issues at most one refresh call and sends the request at most
    twice. A refresh call always carries the stored refresh token. When the
    first answer is a 401 on a request not yet retried: if the refresh
    delivers tokens the request is sent again exactly once, and otherwise
    both stored tokens are removed, the browser is sent to the login page and
    the promise is rejected with the error of the refresh step. That error is
    the plain error ["No refresh token available"] when no refresh token is
    stored, the axios error of the refresh call (its request, and the
    server's answer if there was one) when that call fails, and the error of
    destructuring when the call succeeds with a body that is [null] or
    [undefined]. *)
Theorem refresh_and_retry_at_most_once (n : nat) (c : config) (w : world) :
  exists r w' new,
    apiClient (S (S n)) c w = Some (r, w') /\
    calls w' = (calls w ++ new)%list /\
    length (List.filter is_axios new) <= 1 /\
    length (List.filter is_client new) <= 2 /\
    (forall e, e ∈ new -> is_axios e = true ->
       exists rt, getItem "refresh_token" w = Some rt /\
                  e = ViaAxios (refresh_request rt)) /\
    (forall resp,
       net (calls w) (ViaClient (first_request c w)) = Answer resp ->
       status resp = 401%Z -> _retry c = false ->
       if refresh_succeeds (after_first c w)
       then exists rt c2,
              getItem "refresh_token" w = Some rt /\
              new = [ViaClient (first_request c w);
                     ViaAxios (refresh_request rt);
                     ViaClient c2] /\
              method c2 = method c /\ url c2 = url c /\
              params c2 = params c /\ data c2 = data c
       else getItem "access_token" w' = None /\
            getItem "refresh_token" w' = None /\
            location_href w' = "/auth/login" /\
            exists e,
              r = Rejected e /\
              (truthy_item (getItem "refresh_token" w) = false ->
               e = JsError "No refresh token available") /\
              (forall rt,
                 getItem "refresh_token" w = Some rt -> rt <> "" ->
                 match net (calls w ++ [ViaClient (first_request c w)])%list
                           (ViaAxios (refresh_request rt)) with
                 | NoResponse => e = AxiosError (refresh_request rt) None
                 | Answer r2 =>
                     if validateStatus (status r2)
                     then e = JsError "Cannot destructure response.data"
                     else e = AxiosError (refresh_request rt) (Some r2)
                 end)).
Proof.
  destruct (dispatch_cases ViaClient (first_request c w) w)
    as [[r E]|[resp E]].
  { (* the first exchange resolves *)
    exists (Resolved r), (after_first c w), [ViaClient (first_request c w)].
    rewrite (run_resolved _ _ _ _ E). repeat split; simpl; try lia.
    - intros e ->%list_elem_of_singleton. done.
    - intros resp Hn Hs _. rewrite (dispatch_401 _ _ _ _ Hn Hs) in E. done. }
  destruct (status_is_401 resp && negb (_retry c)) eqn:H401.
  2:{ (* not a 401, or already retried *)
    exists (Rejected (AxiosError (first_request c w) resp)), (after_first c w),
      [ViaClient (first_request c w)].
    rewrite (run_passed_on _ _ _ _ E H401). repeat split; simpl; try lia.
    - intros e ->%list_elem_of_singleton. done.
    - intros resp' Hn Hs Hr. rewrite (dispatch_401 _ _ _ _ Hn Hs) in E.
      injection E as <-. simpl in H401. rewrite Hs, Hr in H401. done. }
  destruct (truthy_item (getItem "refresh_token" w)) eqn:Ht.
  2:{ (* no refresh token stored *)
    eexists _, _, [ViaClient (first_request c w)].
    rewrite (run_no_refresh_token _ _ _ _ E H401 Ht).
    split; [reflexivity|]. repeat split; simpl; try lia.
    - intros e ->%list_elem_of_singleton. done.
    - intros resp' _ _ _. unfold Client.refresh_succeeds.
      change (getItem "refresh_token" (after_first c w))
        with (getItem "refresh_token" w).
      rewrite Ht. simpl.
      destruct (catch_refreshError_clears
                  (JsError "No refresh token available") (after_first c w))
        as (Ha & Hb & Hl & _).
      split; [exact Ha|]. split; [exact Hb|]. split; [exact Hl|].
      eexists. split; [reflexivity|]. split; [done|].
      intros rt Hrt Hne. by destruct (Hne (truthy_item_false _ _ Ht Hrt)). }
  destruct (truthy_item_Some _ Ht) as (rt & Hrt & Hne).
  assert (forall e : call,
    e ∈ [ViaClient (first_request c w); ViaAxios (refresh_request rt)] ->
    is_axios e = true ->
    exists rt0, getItem "refresh_token" w = Some rt0 /\
                e = ViaAxios (refresh_request rt0)) as Hcall2.
  { intros e He Ha. exists rt. split; [done|].
    apply elem_of_cons in He as [->|He]; [done|].
    by apply list_elem_of_singleton in He. }
  destruct (dispatch_cases ViaAxios
              (refresh_request (default "" (getItem "refresh_token" w)))
              (after_first c w)) as [[r2 E2]|[resp2 E2]].
  2:{ (* the refresh call is rejected *)
    eexists _, _,
      [ViaClient (first_request c w); ViaAxios (refresh_request rt)].
    rewrite (run_refresh_failed _ _ _ _ _ E H401 Ht E2).
    split; [reflexivity|]. repeat split; simpl; try lia.
    - rewrite Hrt. simpl. by rewrite <- app_assoc.
    - done.
    - intros resp' _ _ _. unfold Client.refresh_succeeds.
      change (getItem "refresh_token" (after_first c w))
        with (getItem "refresh_token" w).
      rewrite Ht. unfold axios_post.
      fold (refresh_request (default "" (getItem "refresh_token" w))).
      rewrite E2. simpl.
      destruct (catch_refreshError_clears
                  (AxiosError
                     (refresh_request (default "" (getItem "refresh_token" w)))
                     resp2)
                  (after_refresh c w)) as (Ha & Hb & Hl & _).
      split; [exact Ha|]. split; [exact Hb|]. split; [exact Hl|].
      eexists. split; [reflexivity|]. split; [done|].
      intros rt0 Hrt0 _. rewrite Hrt0 in E2 |- *. simpl in E2 |- *.
      rewrite dispatch_net in E2. simpl in E2.
      destruct (net _ (ViaAxios (refresh_request rt0))) as [r2|].
      + destruct (validateStatus (status r2)); [done|]. by injection E2 as <-.
      + by injection E2 as <-. }
  destruct (Js.get "access_token" (rdata r2)) as [access_token|] eqn:Ha.
  2:{ (* the refresh answer cannot be destructured *)
    eexists _, _,
      [ViaClient (first_request c w); ViaAxios (refresh_request rt)].
    rewrite (run_refresh_malformed _ _ _ _ _ E H401 Ht E2 Ha).
    split; [reflexivity|]. repeat split; simpl; try lia.
    - rewrite Hrt. simpl. by rewrite <- app_assoc.
    - done.
    - intros resp' _ _ _. unfold Client.refresh_succeeds.
      change (getItem "refresh_token" (after_first c w))
        with (getItem "refresh_token" w).
      rewrite Ht. unfold axios_post.
      fold (refresh_request (default "" (getItem "refresh_token" w))).
      rewrite E2, Ha. simpl.
      destruct (catch_refreshError_clears
                  (JsError "Cannot destructure response.data")
                  (after_refresh c w)) as (Hx & Hb & Hl & _).
      split; [exact Hx|]. split; [exact Hb|]. split; [exact Hl|].
      eexists. split; [reflexivity|]. split; [done|].
      intros rt0 Hrt0 _. rewrite Hrt0 in E2. simpl in E2.
      rewrite dispatch_net in E2. simpl in E2.
      destruct (net _ (ViaAxios (refresh_request rt0))) as [r3|]; [|done].
      by destruct (validateStatus (status r3)). }
  (* the refresh delivers tokens: one retry *)
  destruct (Js.get "refresh_token" (rdata r2)) as [newRefreshToken|] eqn:Hn.
  2:{ by rewrite (get_None _ "access_token" _ Hn) in Ha. }
  pose (w3 := store_tokens access_token newRefreshToken (after_refresh c w)).
  pose (c2 := first_request (retried_request access_token c w) w3).
  exists (fst (dispatch ViaClient c2 w3)), (snd (dispatch ViaClient c2 w3)),
    [ViaClient (first_request c w); ViaAxios (refresh_request rt);
     ViaClient c2].
  rewrite (run_refresh_retried _ _ _ _ _ _ _ E H401 Ht E2 Ha Hn).
  fold w3 c2. split; [by destruct (dispatch ViaClient c2 w3)|].
  rewrite dispatch_world. repeat split; simpl; try lia.
  - unfold w3. rewrite calls_store_tokens. simpl. rewrite Hrt. simpl.
    by rewrite <- !app_assoc.
  - intros e He Hax. exists rt. split; [done|].
    apply elem_of_cons in He as [->|He]; [done|].
    apply elem_of_cons in He as [->|He]; [done|].
    by apply list_elem_of_singleton in He as ->.
  - intros resp' _ _ _. unfold Client.refresh_succeeds.
    change (getItem "refresh_token" (after_first c w))
      with (getItem "refresh_token" w).
    rewrite Ht. unfold axios_post.
    fold (refresh_request (default "" (getItem "refresh_token" w))).
    rewrite E2, Ha. simpl.
    exists rt, c2. split; [done|]. split; [done|].
    unfold c2. destruct (first_request_same (retried_request access_token c w) w3)
      as (-> & -> & -> & ->).
    simpl. apply first_request_same.
Qed.

(** ** Failures that are not a fresh 401 *)

(** C9. The rejected branch of the response interceptor starts a refresh only
    for a 401 on a request whose [_retry] flag is unset. Any other failure (a
    status other than 401, no response at all, a request already retried) is
    rejected with the same error and leaves the world as it was: no call is
    issued and [localStorage] is not touched. Conversely, a change of the
    world implies a 401 on a request not yet retried. *)
Theorem refresh_only_on_fresh_401
    (retry : config -> world -> option (settled * world))
    (c : config) (resp : option response) (w : world) :
  ((forall r, resp = Some r -> status r <> 401%Z) \/ _retry c = true ->
   response_rejected retry (AxiosError c resp) w
   = Some (Rejected (AxiosError c resp), w)) /\
  (forall res w',
     response_rejected retry (AxiosError c resp) w = Some (res, w') ->
     calls w' <> calls w \/ localStorage w' <> localStorage w ->
     (exists r, resp = Some r /\ status r = 401%Z) /\ _retry c = false).
Proof.
  assert (status_is_401 resp && negb (_retry c) = false ->
          response_rejected retry (AxiosError c resp) w
          = Some (Rejected (AxiosError c resp), w)) as Hpass.
  { intros H. simpl. by rewrite H. }
  split.
  - intros [Hs|Hr]; apply Hpass.
    + destruct resp as [r|]; [|done]. simpl.
      specialize (Hs r eq_refl). apply andb_false_intro1. lia.
    + rewrite Hr. apply andb_false_r.
  - intros res w' Hrun Hchg.
    destruct (status_is_401 resp && negb (_retry c)) eqn:H.
    + apply andb_true_iff in H as [H1 H2]. split.
      * destruct resp as [r|]; [|done]. exists r. split; [done|].
        simpl in H1. lia.
      * by destruct (_retry c).
    + rewrite (Hpass eq_refl) in Hrun. injection Hrun as <- <-.
      by destruct Hchg.
Qed.

(** ** The stored refresh token during a successful cycle *)

Lemma localStorage_store_tokens a b w :
  localStorage (store_tokens a b w)
  = if Js.truthy b
    then <["refresh_token" := Js.to_string b]>
           (<["access_token" := Js.to_string a]> (localStorage w))
    else <["access_token" := Js.to_string a]> (localStorage w).
Proof. unfold store_tokens. by destruct (Js.truthy b). Qed.

(** C10. In a cycle whose refresh call resolves, the access token entry is
    overwritten with the new one; the refresh token entry is overwritten only
    when the answer carries a truthy [refresh_token], and is otherwise left
    as it was, together with every other entry of [localStorage]. *)
Theorem refresh_token_kept_unless_renewed
    (n : nat) (c : config) (w : world) (resp r : response)
    (access_token newRefreshToken : Js.value) :
  net (calls w) (ViaClient (first_request c w)) = Answer resp ->
  status resp = 401%Z ->
  _retry c = false ->
  truthy_item (getItem "refresh_token" w) = true ->
  net (calls (after_first c w))
      (ViaAxios (refresh_request (default "" (getItem "refresh_token" w))))
  = Answer r ->
  validateStatus (status r) = true ->
  Js.get "access_token" (rdata r) = Some access_token ->
  Js.get "refresh_token" (rdata r) = Some newRefreshToken ->
  exists res w',
    apiClient (S (S n)) c w = Some (res, w') /\
    getItem "access_token" w' = Some (Js.to_string access_token) /\
    (Js.truthy newRefreshToken = false ->
     getItem "refresh_token" w' = getItem "refresh_token" w /\
     localStorage w'
     = <["access_token" := Js.to_string access_token]> (localStorage w)) /\
    (Js.truthy newRefreshToken = true ->
     getItem "refresh_token" w' = Some (Js.to_string newRefreshToken)).
Proof.
  intros Hnet Hs Hr Ht Hnet2 Hv Ha Hn.
  pose proof (dispatch_401 ViaClient _ _ _ Hnet Hs) as E.
  assert (status_is_401 (Some resp) && negb (_retry c) = true) as H401.
  { simpl. rewrite Hs, Hr. done. }
  assert (dispatch ViaAxios
            (refresh_request (default "" (getItem "refresh_token" w)))
            (after_first c w)
          = (Resolved r, after_refresh c w)) as E2.
  { unfold Client.dispatch. by rewrite Hnet2, Hv. }
  pose proof (run_refresh_retried n _ _ _ _ _ _ E H401 Ht E2 Ha Hn) as Hrun.
  cbv zeta in Hrun.
  eexists _, _. split.
  { rewrite Hrun. apply f_equal. apply surjective_pairing. }
  rewrite dispatch_world. unfold getItem. simpl.
  rewrite localStorage_store_tokens. simpl.
  destruct (Js.truthy newRefreshToken).
  - split; [|split; [done|]].
    + rewrite lookup_insert_ne by done. apply lookup_insert_eq.
    + intros _. apply lookup_insert_eq.
  - split; [apply lookup_insert_eq|]. split; [|done].
    intros _. split; [|done]. by rewrite lookup_insert_ne.
Qed.

(** ** The bearer header *)


Lemma first_request_no_token c w :
  truthy_item (getItem "access_token" w) = false ->
  first_request c w = mergeConfig env c.
Proof.
  intros H. unfold Client.first_request, request_interceptor. by rewrite H.
Qed.

Lemma getItem_access_store_tokens a b w :
  getItem "access_token" (store_tokens a b w) = Some (Js.to_string a).
Proof.
  unfold getItem. rewrite localStorage_store_tokens.
  destruct (Js.truthy b).
  - rewrite lookup_insert_ne by done. apply lookup_insert_eq.
  - apply lookup_insert_eq.
Qed.




End WithEnvironment.

End ClientFacts.

(** * Facts about the backend contracts *)

Module BackendFacts.
Import Text TextFacts Backend.

Section WithLibrary.

Variable hash_password : string -> string -> string.
Variable verify_password : string -> string -> bool.
Variable create_access_token : string -> string.
Variable create_refresh_token : string -> string.
Variable password_is_strong : string -> bool.
Variable RESET_TOKEN_TTL : Z.

Local Abbreviation register := (Backend.register hash_password).
Local Abbreviation login :=
  (Backend.login verify_password create_access_token create_refresh_token).
Local Abbreviation forgot_password := (Backend.forgot_password RESET_TOKEN_TTL).
Local Abbreviation reset_password :=
  (Backend.reset_password hash_password password_is_strong).
Local Abbreviation step :=
  (Backend.step hash_password password_is_strong RESET_TOKEN_TTL).
Local Abbreviation run :=
  (Backend.run hash_password password_is_strong RESET_TOKEN_TTL).

(** ** Email normalisation *)






(** ** Lookups in the users table *)




(** ** The users table stays keyed by identifier and by email *)










(** ** One user per email *)





(** ** Password reset tokens are single use *)

Lemma reset_password_spent tok pw f d :
  spent tok d ->
  reset_password tok pw f d = (Failure 400 "Invalid or expired reset token", d).
Proof.
  intros (t & Ht & Hu). unfold Backend.reset_password. by rewrite Ht, Hu.
Qed.

Lemma step_spent tok o d : spent tok d -> spent tok (step o d).
Proof.
  intros (t & Ht & Hu). destruct o; simpl.
  - unfold Backend.register. destruct (validate_email _); [|by exists t].
    destruct (_ <? _)%nat; [by exists t|].
    repeat case_bool_decide; by exists t.
  - unfold update_current_user_profile.
    destruct (get_user_by_id _ _); [|by exists t].
    destruct (_ && _); by exists t.
  - unfold Backend.forgot_password.
    destruct (get_user_by_email _ d); [|by exists t].
    destruct (password_reset_tokens d !! fresh_secret f) eqn:Hf; [by exists t|].
    exists t. split; [|done]. simpl. rewrite lookup_insert_ne; [done|].
    intros <-. by rewrite Ht in Hf.
  - unfold Backend.reset_password.
    destruct (password_reset_tokens d !! tok0) as [t0|] eqn:H0; [|by exists t].
    destruct (used t0 || _); [by exists t|].
    destruct (negb _); [by exists t|]. simpl.
    destruct (decide (tok0 = tok)) as [->|Hne].
    + eexists. split; [simpl; apply lookup_insert_eq|done].
    + exists t. split; [simpl|done]. by rewrite lookup_insert_ne.
  - unfold create_task. destruct (new_title req); by exists t.
  - unfold update_task. destruct (List.find _ _); by exists t.
  - unfold delete_task. destruct (List.find _ _); by exists t.
  - unfold toggle_complete. destruct (List.find _ _); by exists t.
Qed.

Lemma run_spent tok ops d : spent tok d -> spent tok (run ops d).
Proof.
  revert d. induction ops as [|o ops IH]; [done|]. simpl.
  intros d H. by apply IH, step_spent.
Qed.

(** C6. A redemption succeeds only on an unused token and before its expiry.
    After one success, every later attempt with the same token is answered
    400, whatever happens in between and whatever the clock says; and a token
    at or past its expiry is never redeemed. *)
Theorem reset_token_redeemed_at_most_once
    (tok pw : string) (f : Fresh) (d d1 : db) (c : Z) (payload : Js.value) :
  reset_password tok pw f d = (Success c payload, d1) ->
  (exists t, password_reset_tokens d !! tok = Some t /\
             used t = false /\ (now f < expires_at t)%Z) /\
  (forall more pw2 f2,
     reset_password tok pw2 f2 (run more d1)
     = (Failure 400 "Invalid or expired reset token", run more d1)) /\
  (forall d0 t pw0 f0,
     password_reset_tokens d0 !! tok = Some t ->
     (expires_at t <= now f0)%Z ->
     reset_password tok pw0 f0 d0
     = (Failure 400 "Invalid or expired reset token", d0)).
Proof.
  intros Hok. split; [|split].
  - unfold Backend.reset_password in Hok.
    destruct (password_reset_tokens d !! tok) as [t|]; [|done].
    destruct (used t || (expires_at t <=? now f)%Z) eqn:Hg; [done|].
    apply orb_false_iff in Hg as [Hu He]. exists t.
    split; [done|]. split; [done|]. lia.
  - intros more pw2 f2. apply reset_password_spent, run_spent.
    unfold Backend.reset_password in Hok.
    destruct (password_reset_tokens d !! tok) as [t|]; [|done].
    destruct (used t || _); [done|]. destruct (negb _); [done|].
    injection Hok as _ _ <-.
    eexists. split; [simpl; apply lookup_insert_eq|done].
  - intros d0 t pw0 f0 Ht He. unfold Backend.reset_password. rewrite Ht.
    destruct (Z.leb_spec (expires_at t) (now f0)); [|lia].
    by rewrite orb_true_r.
Qed.

(** ** Toggling completion *)

Lemma owned_by_set_completed caller tid b x :
  owned_by caller tid (set_completed b x) = owned_by caller tid x.
Proof. done. Qed.

Lemma find_owned_toggled caller tid b (ts : list Task) :
  List.find (owned_by caller tid)
    (List.map (fun x => if owned_by caller tid x then set_completed b x else x)
       ts)
  = set_completed b <$> List.find (owned_by caller tid) ts.
Proof.
  induction ts as [|x ts IH]; [done|]. cbn [List.find List.map].
  destruct (owned_by caller tid x) eqn:E.
  - by rewrite owned_by_set_completed, E.
  - by rewrite E, IH.
Qed.

Lemma toggle_map_idem caller tid b (ts : list Task) :
  let f := fun x => if owned_by caller tid x then set_completed b x else x in
  List.map f (List.map f ts) = List.map f ts.
Proof.
  intros f. rewrite List.map_map. apply List.map_ext. intros x. unfold f.
  destruct (owned_by caller tid x) eqn:E;
    by rewrite ?owned_by_set_completed, E.
Qed.

(** C7. For a task of the caller, [toggleComplete(id, value)] succeeds and
    leaves the task's completion state at [value]; a second call with the
    same value succeeds too, answers the same task, and leaves the store as
    the first call left it. The request the client sends carries the value
    itself, so the endpoint sets the state rather than flipping it. *)
Theorem toggle_complete_idempotent
    (caller tid : string) (value : bool) (d : db) (t : Task) :
  List.find (owned_by caller tid) (tasks d) = Some t ->
  exists t1 d1,
    toggle_complete caller tid value d = (Success 200 t1, d1) /\
    is_completed t1 = value /\
    get_task caller tid d1 = Success 200 t1 /\
    toggle_complete caller tid value d1 = (Success 200 t1, d1) /\
    patch_complete caller tid
      (Client.data (Client.taskApi.toggleTaskComplete tid value)) d
    = toggle_complete caller tid value d.
Proof.
  intros Hfind. unfold patch_complete, toggle_complete, get_task. simpl.
  rewrite Hfind. eexists _, _. split; [reflexivity|]. simpl.
  rewrite find_owned_toggled, Hfind. simpl.
  split; [done|]. split; [done|]. split; [|done].
  unfold with_tasks. simpl. by rewrite toggle_map_idem.
Qed.

(** ** Tasks of other users look like missing tasks *)

Lemma find_owned_own caller tid (ts : list Task) :
  List.find (owned_by caller tid) ts
  = List.find (fun t => String.eqb (task_id t) tid)
      (List.filter (fun t => String.eqb (task_owner t) caller) ts).
Proof.
  induction ts as [|x ts IH]; [done|]. cbn [List.find List.filter].
  assert (owned_by caller tid x
          = String.eqb (task_id x) tid && String.eqb (task_owner x) caller)
    as -> by done.
  destruct (String.eqb (task_owner x) caller) eqn:Eo,
           (String.eqb (task_id x) tid) eqn:Ei;
    cbn [andb List.find]; by rewrite ?Ei, ?IH.
Qed.

Lemma own_map_owned caller tid (g : Task -> Task) (ts : list Task) :
  (forall x, task_owner (g x) = task_owner x) ->
  List.filter (fun t => String.eqb (task_owner t) caller)
    (List.map (fun x => if owned_by caller tid x then g x else x) ts)
  = List.map (fun x => if String.eqb (task_id x) tid then g x else x)
      (List.filter (fun t => String.eqb (task_owner t) caller) ts).
Proof.
  intros Hg. induction ts as [|x ts IH]; [done|]. cbn [List.map List.filter].
  rewrite IH.
  assert (owned_by caller tid x
          = String.eqb (task_id x) tid && String.eqb (task_owner x) caller)
    as -> by done.
  destruct (String.eqb (task_owner x) caller) eqn:Eo,
           (String.eqb (task_id x) tid) eqn:Ei;
    cbn [andb List.map]; by rewrite ?Hg, ?Eo, ?Ei.
Qed.

Lemma own_filter_owned caller tid (ts : list Task) :
  List.filter (fun t => String.eqb (task_owner t) caller)
    (List.filter (fun x => negb (owned_by caller tid x)) ts)
  = List.filter (fun x => negb (String.eqb (task_id x) tid))
      (List.filter (fun t => String.eqb (task_owner t) caller) ts).
Proof.
  induction ts as [|x ts IH]; [done|]. cbn [List.filter].
  assert (owned_by caller tid x
          = String.eqb (task_id x) tid && String.eqb (task_owner x) caller)
    as -> by done.
  destruct (String.eqb (task_owner x) caller) eqn:Eo,
           (String.eqb (task_id x) tid) eqn:Ei;
    cbn [andb negb List.filter]; by rewrite ?Eo, ?Ei, ?IH.
Qed.

Lemma find_owned_foreign caller tid (ts : list Task) :
  (forall t, t ∈ ts -> task_id t = tid -> task_owner t <> caller) ->
  List.find (owned_by caller tid) ts = None.
Proof.
  induction ts as [|x ts IH]; [done|]. intros H. cbn [List.find].
  assert (owned_by caller tid x = false) as ->.
  { unfold owned_by. apply andb_false_iff.
    destruct (String.eqb_spec (task_id x) tid) as [Hid|]; [right|by left].
    apply String.eqb_neq, H; [apply list_elem_of_here|done]. }
  apply IH. intros t Ht. apply H. by apply list_elem_of_further.
Qed.

(** C3. An update or delete of a task id that no record carries, or that
    only records of other users carry, is answered 404 with the same body and
    leaves the store untouched. More generally the answer, and what the
    caller can see afterwards, depend only on the caller's own tasks: two
    stores that differ in other users' records cannot be told apart. No
    answer is 403. *)
Theorem foreign_task_is_not_found
    (caller tid : string) (p : TaskPatch) (d d' : db) :
  ((forall t, t ∈ tasks d -> task_id t = tid -> task_owner t <> caller) ->
   update_task caller tid p d = (Failure 404 "Task not found", d) /\
   delete_task caller tid d = (Failure 404 "Task not found", d)) /\
  (own_tasks caller d = own_tasks caller d' ->
   fst (update_task caller tid p d) = fst (update_task caller tid p d') /\
   fst (delete_task caller tid d) = fst (delete_task caller tid d') /\
   own_tasks caller (snd (update_task caller tid p d))
   = own_tasks caller (snd (update_task caller tid p d')) /\
   own_tasks caller (snd (delete_task caller tid d))
   = own_tasks caller (snd (delete_task caller tid d'))) /\
  status_code (fst (update_task caller tid p d)) <> 403%Z /\
  status_code (fst (delete_task caller tid d)) <> 403%Z.
Proof.
  split; [|split].
  - intros H. unfold update_task, delete_task.
    by rewrite (find_owned_foreign _ _ _ H).
  - unfold own_tasks, update_task, delete_task. intros Hown.
    rewrite !find_owned_own, <- Hown.
    destruct (List.find _ (List.filter _ (tasks d))) as [t|]; simpl.
    + rewrite !own_map_owned, !own_filter_owned by done.
      by rewrite Hown.
    + by rewrite Hown.
  - unfold update_task, delete_task.
    by destruct (List.find _ (tasks d)).
Qed.

(** ** The password hash never leaves the server *)

Lemma has_key_opt_str k o : Js.has_key k (opt_str o) = false.
Proof. by destruct o. Qed.

Lemma user_dict_no_hash u : Js.has_key "hashed_password" (user_dict u) = false.
Proof. simpl. by rewrite !has_key_opt_str. Qed.





(** ** The total of a page *)

(** The [total] of the list answer is the size of the page: the matching
    tasks left after the offset, cut at the limit. *)
Lemma list_tasks_total caller completed offset limit d :
  total (list_tasks caller completed offset limit d)
  = Nat.min limit
      (length (List.filter (matching caller completed) (tasks d)) - offset).
Proof. unfold list_tasks. simpl. by rewrite length_take, length_drop. Qed.

Lemma list_tasks_spec_total caller completed offset limit d :
  total (list_tasks_spec caller completed offset limit d)
  = length (List.filter (matching caller completed) (tasks d)).
Proof. done. Qed.

End WithLibrary.

End BackendFacts.

(** ** The client on a concrete session *)

Module ClientWitness.
Import Client Scenario ClientFacts.

Example stale_session_run :
  exists w',
    apiClient None strict_server 2 list_tasks_request stale_session
    = Some (Resolved (Response 200 (Js.Obj [])), w') /\
    length (calls w') = 3 /\ location_href w' = "/dashboard".
Proof. eexists. repeat split; reflexivity. Qed.

Example expired_refresh_token_run :
  exists e w',
    apiClient None (fun _ _ => Answer (Response 401 Js.Null)) 2
      list_tasks_request stale_session
    = Some (Rejected e, w') /\
    localStorage w' = ∅ /\ location_href w' = "/auth/login" /\
    length (calls w') = 2.
Proof. eexists _, _. repeat split; reflexivity. Qed.

(** The stale session against the strict server: request, refresh, request
    again, and nothing more. Against a server that rejects everything, the
    caller gets the error of the refresh call. *)
Lemma refresh_and_retry_at_most_once_witness :
  (exists r w' c2,
     apiClient None strict_server 2 list_tasks_request stale_session
     = Some (r, w') /\
     calls w'
     = [ViaClient (first_request None list_tasks_request stale_session);
        ViaAxios (refresh_request None "r1");
        ViaClient c2]) /\
  (exists w',
     apiClient None rejecting_server 2 list_tasks_request stale_session
     = Some (Rejected
               (AxiosError (refresh_request None "r1")
                  (Some (Response 401
                           (Js.Obj [("detail", Js.Str "Not authenticated")])))),
             w') /\
     localStorage w' = ∅).
Proof.
  split.
  - destruct (refresh_and_retry_at_most_once None strict_server 0
                list_tasks_request stale_session)
      as (r & w' & new & Hrun & Hcalls & _ & _ & _ & Hcycle).
    specialize (Hcycle (Response 401 Js.Null) eq_refl eq_refl eq_refl).
    change (refresh_succeeds None strict_server
              (after_first None list_tasks_request stale_session))
      with true in Hcycle.
    destruct Hcycle as (rt & c2 & Hrt & Hnew & _).
    injection Hrt as <-.
    exists r, w', c2. split; [exact Hrun|].
    rewrite Hcalls. exact Hnew.
  - destruct (refresh_and_retry_at_most_once None rejecting_server 0
                list_tasks_request stale_session)
      as (r & w' & new & Hrun & _ & _ & _ & _ & Hcycle).
    specialize (Hcycle
      (Response 401 (Js.Obj [("detail", Js.Str "Not authenticated")]))
      eq_refl eq_refl eq_refl).
    change (refresh_succeeds None rejecting_server
              (after_first None list_tasks_request stale_session))
      with false in Hcycle.
    destruct Hcycle as (Ha & Hb & _ & e & -> & _ & Herr).
    specialize (Herr "r1" eq_refl ltac:(discriminate)).
    simpl in Herr. subst e.
    exists w'. split; [exact Hrun|].
    revert Hrun. vm_compute. by intros [= <-].
Defined.

(** A server error on the stale session is handed to the caller as it is. *)
Lemma refresh_only_on_fresh_401_witness :
  let c := first_request None list_tasks_request stale_session in
  let err := AxiosError c (Some (Response 500 Js.Null)) in
  response_rejected None strict_server (apiClient None strict_server 1) err
    stale_session
  = Some (Rejected err, stale_session).
Proof.
  intros c err.
  refine (proj1 (refresh_only_on_fresh_401 None strict_server
                   (apiClient None strict_server 1) c
                   (Some (Response 500 Js.Null)) stale_session) _).
  left. intros r [= <-]. simpl. lia.
Defined.

(** The strict server renews the access token only: the stored refresh token
    ["r1"] is still there after the cycle. *)
Lemma refresh_token_kept_unless_renewed_witness :
  exists res w',
    apiClient None strict_server 2 list_tasks_request stale_session
    = Some (res, w') /\
    getItem "access_token" w' = Some "a2" /\
    getItem "refresh_token" w' = Some "r1".
Proof.
  destruct (refresh_token_kept_unless_renewed None strict_server 0
              list_tasks_request stale_session
              (Response 401 Js.Null)
              (Response 200 (Js.Obj [("access_token", Js.Str "a2")]))
              (Js.Str "a2") Js.Undefined
              eq_refl eq_refl eq_refl eq_refl eq_refl eq_refl eq_refl eq_refl)
    as (res & w' & Hrun & Ha & Hkept & _).
  exists res, w'. split; [exact Hrun|]. split; [exact Ha|].
  destruct (Hkept eq_refl) as [-> _]. reflexivity.
Defined.



End ClientWitness.


(** ** The contracts on concrete stores *)

Module BackendWitness.
Import Text Backend Scenario BackendFacts.

Example validate_email_normalises :
  validate_email "  USER@X.com " = Some "user@x.com".
Proof. reflexivity. Qed.

Example validate_email_rejects : validate_email "user@x" = None.
Proof. reflexivity. Qed.

(** C1 at five matching tasks and [limit=2]: the answer carries two tasks and
    reports a total of 2, where the matching set has 5. *)
Theorem list_total_reports_page_size :
  length (list_tasks_page (list_tasks "u1" None 0 2 six_tasks_db)) = 2 /\
  total (list_tasks "u1" None 0 2 six_tasks_db) = 2 /\
  total (list_tasks_spec "u1" None 0 2 six_tasks_db) = 5.
Proof. repeat split; reflexivity. Qed.




Lemma reset_token_redeemed_at_most_once_witness :
  let f := at_time "" "salt3" 200 in
  let d1 := snd (Backend.reset_password demo_hash demo_strong
                   "reset-token-1" "new-password" f reset_requested_db) in
  Backend.reset_password demo_hash demo_strong
    "reset-token-1" "another-password" (at_time "" "salt4" 300) d1
  = (Failure 400 "Invalid or expired reset token", d1).
Proof.
  intros f d1.
  refine (proj1 (proj2
    (reset_token_redeemed_at_most_once demo_hash demo_strong DEMO_TTL
       "reset-token-1" "new-password" f reset_requested_db d1 200 _ _))
    [] "another-password" (at_time "" "salt4" 300)).
  reflexivity.
Defined.

Lemma toggle_complete_idempotent_witness :
  exists t1 d1,
    toggle_complete "u1" "t2" true six_tasks_db = (Success 200 t1, d1) /\
    is_completed t1 = true /\
    toggle_complete "u1" "t2" true d1 = (Success 200 t1, d1).
Proof.
  destruct (toggle_complete_idempotent "u1" "t2" true six_tasks_db
              (mkTask "t2" "u1" "B" None false None None
                 "2026-02-15T10:00:00") eq_refl)
    as (t1 & d1 & H1 & H2 & _ & H3 & _).
  exists t1, d1. auto.
Defined.

(** User [u2] addressing task [t1] of user [u1] gets the answer it gets for
    an id that does not exist. *)
Lemma foreign_task_is_not_found_witness :
  update_task "u2" "t1" rename_patch six_tasks_db
  = (Failure 404 "Task not found", six_tasks_db) /\
  update_task "u2" "t9" rename_patch six_tasks_db
  = (Failure 404 "Task not found", six_tasks_db) /\
  delete_task "u2" "t1" six_tasks_db
  = (Failure 404 "Task not found", six_tasks_db).
Proof.
  assert (forall tid, tid = "t1" \/ tid = "t9" ->
          forall t, t ∈ tasks six_tasks_db -> task_id t = tid ->
                    task_owner t <> "u2") as Hforeign.
  { intros tid Htid t Ht Hid. vm_compute in Ht.
    repeat (apply elem_of_cons in Ht as [->|Ht]; [by destruct Htid; subst|]).
    by apply elem_of_nil in Ht. }
  pose proof (proj1 (foreign_task_is_not_found "u2" "t1" rename_patch
                       six_tasks_db six_tasks_db)
                (Hforeign "t1" (or_introl eq_refl))) as [H1 H2].
  pose proof (proj1 (foreign_task_is_not_found "u2" "t9" rename_patch
                       six_tasks_db six_tasks_db)
                (Hforeign "t9" (or_intror eq_refl))) as [H3 _].
  auto.
Defined.

End BackendWitness.

(** * More facts about the client: what a run leaves behind *)

Module ClientMore.
Import Client ClientFacts ClientRuns.

Section WithEnvironment.

Variable env : option string.
Variable net : list call -> call -> transport.

Local Abbreviation apiClient := (Client.apiClient env net).
Local Abbreviation dispatch := (Client.dispatch net).
Local Abbreviation first_request := (Client.first_request env).
Local Abbreviation refresh_request := (Client.refresh_request env).
Local Abbreviation refresh_succeeds := (Client.refresh_succeeds env net).
Local Abbreviation after_first := (Client.after_first env).
Local Abbreviation after_refresh := (Client.after_refresh env).
Local Abbreviation retried_request := (Client.retried_request env).
Local Abbreviation mergeConfig := (Client.mergeConfig env).
Local Abbreviation ending := (ClientRuns.ending env net).

Lemma run_ending n c w :
  exists r w', apiClient (S (S n)) c w = Some (r, w') /\ ending c w r w'.
Proof.
  destruct (dispatch_cases net ViaClient (first_request c w) w)
    as [[r E]|[resp E]].
  { eexists _, _. split; [by apply run_resolved|]. by apply Direct. }
  destruct (status_is_401 resp && negb (_retry c)) eqn:H401.
  2:{ eexists _, _. split; [by apply run_passed_on|]. by apply Direct. }
  destruct (truthy_item (getItem "refresh_token" w)) eqn:Ht.
  2:{ eexists _, _. split.
      - rewrite (run_no_refresh_token _ _ _ _ _ _ E H401 Ht). reflexivity.
      - eapply Caught; [reflexivity|reflexivity|reflexivity|by left]. }
  destruct (dispatch_cases net ViaAxios
              (refresh_request (default "" (getItem "refresh_token" w)))
              (after_first c w)) as [[r2 E2]|[resp2 E2]].
  2:{ eexists _, _. split.
      - rewrite (run_refresh_failed _ _ _ _ _ _ _ E H401 Ht E2). reflexivity.
      - eapply Caught; [reflexivity|reflexivity|reflexivity|].
        right. simpl. by rewrite <- app_assoc. }
  destruct (Js.get "access_token" (rdata r2)) as [a|] eqn:Ha.
  2:{ eexists _, _. split.
      - rewrite (run_refresh_malformed _ _ _ _ _ _ _ E H401 Ht E2 Ha).
        reflexivity.
      - eapply Caught; [reflexivity|reflexivity|reflexivity|].
        right. simpl. by rewrite <- app_assoc. }
  destruct (Js.get "refresh_token" (rdata r2)) as [b|] eqn:Hn.
  2:{ by rewrite (get_None _ "access_token" _ Hn) in Ha. }
  eexists _, _. split.
  - rewrite (run_refresh_retried _ _ _ _ _ _ _ _ _ E H401 Ht E2 Ha Hn).
    apply f_equal, surjective_pairing.
  - apply (Retried _ _ _ _ _ _ a b). cbv zeta.
    by rewrite <- surjective_pairing.
Qed.

(** ** Helper facts *)

Lemma union_singleton_present (m : gmap string string) k v :
  is_Some (m !! k) -> m ∪ {[ k := v ]} = m.
Proof.
  intros [x Hx]. apply map_eq. intros i. rewrite lookup_union.
  destruct (decide (i = k)) as [->|Hne].
  - by rewrite Hx, lookup_singleton_eq.
  - rewrite lookup_singleton_ne by done. by destruct (m !! i).
Qed.

Lemma first_request_has_content_type c w :
  is_Some (headers (first_request c w) !! "Content-Type").
Proof.
  assert (is_Some (headers (mergeConfig c) !! "Content-Type")) as Hm.
  { simpl. rewrite lookup_union.
    destruct (headers c !! "Content-Type"); by rewrite lookup_singleton_eq. }
  unfold Client.first_request, request_interceptor.
  destruct (truthy_item _); [|done]. simpl.
  by rewrite lookup_insert_ne.
Qed.

Lemma first_request_merged c w :
  baseURL (first_request c w) = Some (default (API_BASE_URL env) (baseURL c)) /\
  timeout (first_request c w) = Some (default 30000%Z (timeout c)).
Proof.
  unfold Client.first_request, request_interceptor.
  by destruct (truthy_item _).
Qed.

(** The request sent again is the first request with [_retry] set and the
    [Authorization] header replaced. *)
Lemma first_request_retried a b c w w0 :
  first_request (retried_request a c w) (store_tokens a b w0)
  = set_header "Authorization" ("Bearer " +:+ Js.to_string a)
      (set_retry (first_request c w)).
Proof.
  destruct (first_request_merged c w) as [Hb Ht].
  pose proof (first_request_has_content_type c w) as Hct.
  assert (mergeConfig (retried_request a c w)
          = set_header "Authorization" ("Bearer " +:+ Js.to_string a)
              (set_retry (first_request c w))) as Hm.
  { unfold Client.mergeConfig, Client.retried_request, set_header, set_retry.
    simpl. rewrite Hb, Ht. simpl. f_equal.
    apply union_singleton_present. by rewrite lookup_insert_ne. }
  unfold Client.first_request at 1. rewrite Hm.
  unfold request_interceptor. rewrite getItem_access_store_tokens. simpl.
  destruct (String.eqb (Js.to_string a) ""); simpl; [done|].
  unfold set_header. simpl. by rewrite insert_insert_eq.
Qed.

Lemma fresh_401 resp c :
  status resp = 401%Z -> _retry c = false ->
  status_is_401 (Some resp) && negb (_retry c) = true.
Proof. intros Hs Hr. simpl. by rewrite Hs, Hr. Qed.

(** A 401 on a request not yet retried, with a refresh that does not deliver
    tokens, ends in the [catch] block. *)
Lemma run_caught n c w resp :
  net (calls w) (ViaClient (first_request c w)) = Answer resp ->
  status resp = 401%Z -> _retry c = false ->
  refresh_succeeds (after_first c w) = false ->
  exists e w1,
    apiClient (S n) c w = Some (catch_refreshError e w1) /\
    localStorage w1 = localStorage w.
Proof.
  intros Hnet Hs Hr Hfail.
  pose proof (dispatch_401 net ViaClient _ _ _ Hnet Hs) as E.
  pose proof (fresh_401 _ _ Hs Hr) as H401.
  unfold Client.refresh_succeeds in Hfail.
  change (getItem "refresh_token" (after_first c w))
    with (getItem "refresh_token" w) in Hfail.
  destruct (truthy_item (getItem "refresh_token" w)) eqn:Ht.
  2:{ eexists _, _.
      split; [exact (run_no_refresh_token _ _ _ _ _ _ E H401 Ht)|done]. }
  unfold axios_post in Hfail.
  fold (refresh_request (default "" (getItem "refresh_token" w))) in Hfail.
  destruct (dispatch_cases net ViaAxios
              (refresh_request (default "" (getItem "refresh_token" w)))
              (after_first c w)) as [[r2 E2]|[resp2 E2]].
  2:{ eexists _, _.
      split; [exact (run_refresh_failed _ _ _ _ _ _ _ E H401 Ht E2)|done]. }
  rewrite E2 in Hfail. simpl in Hfail.
  destruct (Js.get "access_token" (rdata r2)) eqn:Ha; [done|].
  eexists _, _.
  split; [exact (run_refresh_malformed _ _ _ _ _ _ _ E H401 Ht E2 Ha)|done].
Qed.

(** With a refresh that delivers tokens, the run ends with the request sent
    again in the world where the tokens are stored. *)
Lemma run_retried n c w resp :
  net (calls w) (ViaClient (first_request c w)) = Answer resp ->
  status resp = 401%Z -> _retry c = false ->
  refresh_succeeds (after_first c w) = true ->
  exists a b,
    let w3 := store_tokens a b (after_refresh c w) in
    apiClient (S (S n)) c w
    = Some (dispatch ViaClient
              (first_request (retried_request a c w) w3) w3).
Proof.
  intros Hnet Hs Hr Hok.
  pose proof (dispatch_401 net ViaClient _ _ _ Hnet Hs) as E.
  pose proof (fresh_401 _ _ Hs Hr) as H401.
  unfold Client.refresh_succeeds in Hok.
  change (getItem "refresh_token" (after_first c w))
    with (getItem "refresh_token" w) in Hok.
  destruct (truthy_item (getItem "refresh_token" w)) eqn:Ht; [|done].
  unfold axios_post in Hok.
  fold (refresh_request (default "" (getItem "refresh_token" w))) in Hok.
  destruct (dispatch_cases net ViaAxios
              (refresh_request (default "" (getItem "refresh_token" w)))
              (after_first c w)) as [[r2 E2]|[resp2 E2]];
    rewrite E2 in Hok; [|done]. simpl in Hok.
  destruct (Js.get "access_token" (rdata r2)) as [a|] eqn:Ha; [|done].
  destruct (Js.get "refresh_token" (rdata r2)) as [b|] eqn:Hn.
  2:{ by rewrite (get_None _ "access_token" _ Hn) in Ha. }
  exists a, b.
  exact (run_refresh_retried _ _ _ _ _ _ _ _ _ E H401 Ht E2 Ha Hn).
Qed.

Lemma ending_storage c w r w' k :
  ending c w r w' ->
  k <> "access_token" -> k <> "refresh_token" ->
  getItem k w' = getItem k w.
Proof.
  intros [Hd|e w1 _ -> Hl _|a b w3 c3 Hd] Ha Hr; unfold getItem.
  - pose proof (dispatch_world net ViaClient (first_request c w) w) as Hw.
    rewrite <- Hd in Hw. simpl in Hw. by subst w'.
  - simpl. by rewrite !lookup_delete_ne, Hl.
  - pose proof (dispatch_world net ViaClient c3 w3) as Hw.
    rewrite <- Hd in Hw. simpl in Hw. subst w'. simpl. unfold w3.
    rewrite localStorage_store_tokens.
    destruct (Js.truthy b); by rewrite !lookup_insert_ne.
Qed.

(** X1. Whatever the server answers, a run of [apiClient] reads and writes
    only the two token entries of [localStorage]: every other key holds what
    it held before. *)
Theorem apiClient_touches_only_token_entries
    (n : nat) (c : config) (w : world) (k : string) :
  k <> "access_token" -> k <> "refresh_token" ->
  exists r w',
    apiClient (S (S n)) c w = Some (r, w') /\
    getItem k w' = getItem k w.
Proof.
  intros Ha Hr. destruct (run_ending n c w) as (r & w' & Hrun & He).
  exists r, w'. split; [done|]. by eapply ending_storage.
Qed.

(** X2. The page location changes only to the login page, and only together
    with the removal of both tokens and a rejected promise. A resolved
    promise leaves the location alone and never leaves the browser without an
    access token it had before. *)
Theorem redirect_only_with_tokens_cleared (n : nat) (c : config) (w : world) :
  exists r w',
    apiClient (S (S n)) c w = Some (r, w') /\
    (location_href w' = location_href w \/
     (location_href w' = "/auth/login" /\
      getItem "access_token" w' = None /\
      getItem "refresh_token" w' = None /\
      exists e, r = Rejected e)) /\
    (forall resp, r = Resolved resp ->
       location_href w' = location_href w /\
       (is_Some (getItem "access_token" w) ->
        is_Some (getItem "access_token" w'))).
Proof.
  destruct (run_ending n c w) as (r & w' & Hrun & He).
  exists r, w'. split; [done|].
  destruct He as [Hd|e w1 -> -> Hl _|a b w3 c3 Hd].
  - pose proof (dispatch_world net ViaClient (first_request c w) w) as Hw.
    rewrite <- Hd in Hw. simpl in Hw. subst w'.
    split; [by left|]. by intros resp _.
  - split; [|done]. right.
    destruct (catch_refreshError_clears e w1) as (H1 & H2 & H3 & _).
    repeat split; try done. eauto.
  - pose proof (dispatch_world net ViaClient c3 w3) as Hw.
    rewrite <- Hd in Hw. simpl in Hw. subst w'.
    assert (location_href (record_call (ViaClient c3) w3) = location_href w)
      as Hloc.
    { simpl. unfold w3, store_tokens. by destruct (Js.truthy b). }
    split; [by left|]. intros resp _. split; [done|]. intros _.
    change (getItem "access_token" (record_call (ViaClient c3) w3))
      with (getItem "access_token" w3).
    unfold w3. rewrite getItem_access_store_tokens. eauto.
Qed.

Lemma ending_three_calls c w r w' c1 e2 c3 :
  ending c w r w' ->
  calls w' = (calls w ++ [ViaClient c1; e2; ViaClient c3])%list ->
  exists a b,
    let w3 := store_tokens a b (after_refresh c w) in
    c1 = first_request c w /\
    c3 = first_request (retried_request a c w) w3 /\
    (r, w') = dispatch ViaClient c3 w3.
Proof.
  intros [Hd|e w1 _ -> _ Hc|a b w3 c3' Hd] Hcalls.
  - pose proof (dispatch_world net ViaClient (first_request c w) w) as Hw.
    rewrite <- Hd in Hw. simpl in Hw. subst w'.
    simpl in Hcalls. by apply app_inv_head in Hcalls.
  - simpl in Hcalls. destruct Hc as [Hc|Hc]; rewrite Hc in Hcalls;
      by apply app_inv_head in Hcalls.
  - pose proof (dispatch_world net ViaClient c3' w3) as Hw.
    rewrite <- Hd in Hw. simpl in Hw. subst w'. simpl in Hcalls.
    unfold w3 in Hcalls. rewrite calls_store_tokens in Hcalls.
    simpl in Hcalls. rewrite <- !app_assoc in Hcalls. simpl in Hcalls.
    apply app_inv_head in Hcalls. injection Hcalls as <- _ <-.
    by exists a, b.
Qed.

(** X3. When a run sends the request a second time, the request sent again
    is the first one with [_retry] set and the [Authorization] header
    replaced by the bearer of the access token stored by then: method, URL,
    base URL, timeout, parameters, body and every other header are the
    same. *)
Theorem retried_request_is_first_with_new_bearer
    (n : nat) (c : config) (w : world) (r : settled) (w' : world)
    (c1 c3 : config) (e2 : call) :
  apiClient (S (S n)) c w = Some (r, w') ->
  calls w' = (calls w ++ [ViaClient c1; e2; ViaClient c3])%list ->
  exists token,
    getItem "access_token" w' = Some token /\
    c3 = set_header "Authorization" ("Bearer " +:+ token) (set_retry c1).
Proof.
  intros Hrun Hcalls.
  destruct (run_ending n c w) as (r0 & w0 & Hrun0 & He).
  rewrite Hrun in Hrun0. injection Hrun0 as <- <-.
  destruct (ending_three_calls _ _ _ _ _ _ _ He Hcalls)
    as (a & b & -> & -> & Hd).
  exists (Js.to_string a). split; [|apply first_request_retried].
  pose proof (dispatch_world net ViaClient
    (first_request (retried_request a c w)
       (store_tokens a b (after_refresh c w)))
    (store_tokens a b (after_refresh c w))) as Hw.
  rewrite <- Hd in Hw. simpl in Hw. subst w'.
  apply getItem_access_store_tokens.
Qed.

(** A cycle whose refresh call is answered with tokens: what is run. *)
Lemma run_refreshed n c w resp rt r2 a b :
  net (calls w) (ViaClient (first_request c w)) = Answer resp ->
  status resp = 401%Z -> _retry c = false ->
  getItem "refresh_token" w = Some rt -> rt <> "" ->
  net (calls w ++ [ViaClient (first_request c w)])%list
      (ViaAxios (refresh_request rt)) = Answer r2 ->
  validateStatus (status r2) = true ->
  Js.get "access_token" (rdata r2) = Some a ->
  Js.get "refresh_token" (rdata r2) = Some b ->
  let w3 := store_tokens a b (after_refresh c w) in
  let c3 := set_header "Authorization" ("Bearer " +:+ Js.to_string a)
              (set_retry (first_request c w)) in
  apiClient (S (S n)) c w = Some (dispatch ViaClient c3 w3) /\
  calls w3 = (calls w ++ [ViaClient (first_request c w);
                         ViaAxios (refresh_request rt)])%list.
Proof.
  intros Hnet Hs Hr Hrt Hne Hnet2 Hv Ha Hb w3 c3.
  pose proof (dispatch_401 net ViaClient _ _ _ Hnet Hs) as E.
  pose proof (fresh_401 _ _ Hs Hr) as H401.
  assert (truthy_item (getItem "refresh_token" w) = true) as Ht.
  { rewrite Hrt. simpl. by destruct (String.eqb_spec rt ""). }
  assert (dispatch ViaAxios
            (refresh_request (default "" (getItem "refresh_token" w)))
            (after_first c w)
          = (Resolved r2, after_refresh c w)) as E2.
  { unfold Client.after_refresh. rewrite dispatch_net, Hrt. simpl.
    by rewrite Hnet2, Hv. }
  pose proof (run_refresh_retried _ _ n _ _ _ _ _ _ E H401 Ht E2 Ha Hb)
    as Hrun.
  cbv zeta in Hrun. rewrite first_request_retried in Hrun.
  split; [exact Hrun|].
  unfold w3. rewrite calls_store_tokens. simpl. rewrite Hrt. simpl.
  by rewrite <- app_assoc.
Qed.

(** X4. The answer to the request sent again is final. When the first
    answer is a 401 and the refresh call delivers tokens, the run consists of
    exactly three calls (the request, the refresh call, the request with the
    new bearer) and the promise settles with the answer to the third:
    resolved on a 2xx status, and otherwise rejected with the error of that
    exchange, even on another 401. The tokens of the refresh answer are what
    [localStorage] holds afterwards, and the page is not redirected. *)
Theorem second_answer_is_final
    (n : nat) (c : config) (w : world) (resp r2 : response) (rt : string)
    (a b : Js.value) :
  net (calls w) (ViaClient (first_request c w)) = Answer resp ->
  status resp = 401%Z -> _retry c = false ->
  getItem "refresh_token" w = Some rt -> rt <> "" ->
  net (calls w ++ [ViaClient (first_request c w)])%list
      (ViaAxios (refresh_request rt)) = Answer r2 ->
  validateStatus (status r2) = true ->
  Js.get "access_token" (rdata r2) = Some a ->
  Js.get "refresh_token" (rdata r2) = Some b ->
  let c3 := set_header "Authorization" ("Bearer " +:+ Js.to_string a)
              (set_retry (first_request c w)) in
  let before := (calls w ++ [ViaClient (first_request c w);
                            ViaAxios (refresh_request rt)])%list in
  exists r w',
    apiClient (S (S n)) c w = Some (r, w') /\
    calls w' = (before ++ [ViaClient c3])%list /\
    r = match net before (ViaClient c3) with
        | Answer resp3 =>
            if validateStatus (status resp3) then Resolved resp3
            else Rejected (AxiosError c3 (Some resp3))
        | NoResponse => Rejected (AxiosError c3 None)
        end /\
    localStorage w'
    = (if Js.truthy b
       then <["refresh_token" := Js.to_string b]>
              (<["access_token" := Js.to_string a]> (localStorage w))
       else <["access_token" := Js.to_string a]> (localStorage w)) /\
    location_href w' = location_href w.
Proof.
  intros Hnet Hs Hr Hrt Hne Hnet2 Hv Ha Hb c3 before.
  destruct (run_refreshed n c w resp rt r2 a b Hnet Hs Hr Hrt Hne Hnet2 Hv
              Ha Hb) as [Hrun Hcalls].
  cbv zeta in Hrun, Hcalls. fold c3 in Hrun. fold before in Hcalls.
  rewrite dispatch_net, Hcalls in Hrun.
  eexists _, _. split; [exact Hrun|].
  split; [simpl; by rewrite Hcalls|]. split; [done|].
  split; [simpl; by rewrite localStorage_store_tokens|].
  simpl. unfold store_tokens. by destruct (Js.truthy b).
Qed.

Lemma get_Some k k' v x : Js.get k v = Some x -> is_Some (Js.get k' v).
Proof. destruct v; simpl; eauto; done. Qed.

(** What the request interceptor does with a stored access token. *)
Lemma first_request_stored c w s :
  getItem "access_token" w = Some s ->
  first_request c w
  = if String.eqb s "" then mergeConfig c
    else set_header "Authorization" ("Bearer " +:+ s) (mergeConfig c).
Proof.
  intros Hg. unfold Client.first_request, request_interceptor. rewrite Hg.
  simpl. by destruct (String.eqb s "").
Qed.

(** X5. After a 401 cycle the next request through [apiClient] goes out
    with what the cycle left in [localStorage]. When the refresh call was
    answered with an access token, that token is stored and every later
    request is the merged request with the bearer of that very token (or with
    no header added, should the token be the empty string). When the refresh
    failed, no access token is stored and later requests go out with the
    caller's headers and the instance defaults only. *)
Theorem next_request_after_cycle
    (n : nat) (c : config) (w : world) (resp : response) :
  net (calls w) (ViaClient (first_request c w)) = Answer resp ->
  status resp = 401%Z -> _retry c = false ->
  exists r w',
    apiClient (S (S n)) c w = Some (r, w') /\
    (forall rt r2 a,
       getItem "refresh_token" w = Some rt -> rt <> "" ->
       net (calls w ++ [ViaClient (first_request c w)])%list
           (ViaAxios (refresh_request rt)) = Answer r2 ->
       validateStatus (status r2) = true ->
       Js.get "access_token" (rdata r2) = Some a ->
       getItem "access_token" w' = Some (Js.to_string a) /\
       forall c',
         first_request c' w'
         = if String.eqb (Js.to_string a) "" then mergeConfig c'
           else set_header "Authorization" ("Bearer " +:+ Js.to_string a)
                  (mergeConfig c')) /\
    (refresh_succeeds (after_first c w) = false ->
     getItem "access_token" w' = None /\
     forall c', first_request c' w' = mergeConfig c').
Proof.
  intros Hnet Hs Hr.
  destruct (run_ending n c w) as (r & w' & Hrun & _).
  exists r, w'. split; [exact Hrun|]. split.
  - intros rt r2 a Hrt Hne Hnet2 Hv Ha.
    destruct (get_Some _ "refresh_token" _ _ Ha) as [b Hb].
    destruct (run_refreshed n c w resp rt r2 a b Hnet Hs Hr Hrt Hne Hnet2 Hv
                Ha Hb) as [Hrun' _].
    cbv zeta in Hrun'. rewrite Hrun, dispatch_net in Hrun'.
    injection Hrun' as _ ->.
    assert (getItem "access_token"
              (record_call
                 (ViaClient
                    (set_header "Authorization"
                       ("Bearer " +:+ Js.to_string a)
                       (set_retry (first_request c w))))
                 (store_tokens a b (after_refresh c w)))
            = Some (Js.to_string a)) as Hg.
    { apply getItem_access_store_tokens. }
    split; [exact Hg|]. intros c'. by apply first_request_stored.
  - intros Hfail.
    destruct (run_caught (S n) c w resp Hnet Hs Hr Hfail)
      as (e & w1 & Hrun' & _).
    rewrite Hrun in Hrun'. injection Hrun' as _ ->.
    destruct (catch_refreshError_clears e w1) as (H1 & _).
    cbv zeta in H1. simpl in H1. split; [exact H1|].
    intros c'. apply first_request_no_token. by rewrite H1.
Qed.

Lemma dispatch_resolved mk c w r w1 :
  (Resolved r, w1) = dispatch mk c w ->
  validateStatus (status r) = true /\
  net (calls w) (mk c) = Answer r /\
  calls w1 = (calls w ++ [mk c])%list.
Proof.
  unfold Client.dispatch. destruct (net (calls w) (mk c)) as [r0|]; [|done].
  destruct (validateStatus (status r0)) eqn:Hv; [|done].
  by intros [= -> ->].
Qed.

(** X15. The promise of [apiClient] resolves only with an answer the server
    gave to the request itself (sent first or sent again) and only when its
    status is 2xx: the answer of the refresh call, or an answer with any
    other status, never reaches the caller as a success. *)
Theorem promise_resolves_only_on_2xx
    (n : nat) (c : config) (w : world) (resp : response) (w' : world) :
  apiClient (S (S n)) c w = Some (Resolved resp, w') ->
  (200 <= status resp < 300)%Z /\
  exists history c',
    calls w' = (history ++ [ViaClient c'])%list /\
    net history (ViaClient c') = Answer resp /\
    method c' = method c /\ url c' = url c /\ data c' = data c.
Proof.
  intros Hrun. destruct (run_ending n c w) as (r0 & w0 & Hrun0 & He).
  rewrite Hrun in Hrun0. injection Hrun0 as <- <-.
  assert (forall c0 w0,
    (Resolved resp, w') = dispatch ViaClient c0 w0 ->
    (200 <= status resp < 300)%Z /\
    exists history c',
      calls w' = (history ++ [ViaClient c'])%list /\
      net history (ViaClient c') = Answer resp /\ c' = c0) as Hres.
  { intros c0 w0 Hd. destruct (dispatch_resolved _ _ _ _ _ Hd) as (Hv & Hn & Hc).
    split; [unfold validateStatus in Hv; lia|]. by exists (calls w0), c0. }
  destruct He as [Hd|e w1 Hr _ _ _|a b w3 c3 Hd].
  - destruct (Hres _ _ Hd) as (Hst & h & c' & Hc & Hn & ->).
    split; [done|]. exists h, (first_request c w).
    destruct (first_request_same env c w) as (? & ? & _ & ?). done.
  - done.
  - destruct (Hres _ _ Hd) as (Hst & h & c' & Hc & Hn & ->).
    split; [done|]. exists h, c3.
    split; [done|]. split; [done|]. unfold c3, w3.
    rewrite first_request_retried. simpl.
    destruct (first_request_same env c w) as (? & ? & _ & ?). done.
Qed.

(** X6. A 401 whose refresh fails never reaches the caller as it came. With
    no refresh token stored (a failed login from a fresh browser, say) no
    refresh call is made and the promise is rejected with the plain error
    ["No refresh token available"]. With a refresh token stored, the refresh
    call is the second and last call, and the promise is rejected with the
    error of the refresh step: the axios error of the refresh call when the
    server refuses it or does not answer, and the error of destructuring when
    it answers 2xx with a body that is [null] or [undefined]. In every case
    the server's answer to the original request is dropped. *)
Theorem original_401_is_replaced
    (n : nat) (c : config) (w : world) (resp : response) :
  net (calls w) (ViaClient (first_request c w)) = Answer resp ->
  status resp = 401%Z -> _retry c = false ->
  refresh_succeeds (after_first c w) = false ->
  exists e w',
    apiClient (S n) c w = Some (Rejected e, w') /\
    e <> AxiosError (first_request c w) (Some resp) /\
    (truthy_item (getItem "refresh_token" w) = false ->
     e = JsError "No refresh token available" /\
     calls w' = (calls w ++ [ViaClient (first_request c w)])%list) /\
    (forall rt,
       getItem "refresh_token" w = Some rt -> rt <> "" ->
       calls w' = (calls w ++ [ViaClient (first_request c w);
                              ViaAxios (refresh_request rt)])%list /\
       match net (calls w ++ [ViaClient (first_request c w)])%list
                 (ViaAxios (refresh_request rt)) with
       | NoResponse => e = AxiosError (refresh_request rt) None
       | Answer r2 =>
           if validateStatus (status r2)
           then e = JsError "Cannot destructure response.data" /\
                (rdata r2 = Js.Null \/ rdata r2 = Js.Undefined)
           else e = AxiosError (refresh_request rt) (Some r2)
       end).
Proof.
  intros Hnet Hs Hr Hfail.
  pose proof (dispatch_401 net ViaClient _ _ _ Hnet Hs) as E.
  pose proof (fresh_401 _ _ Hs Hr) as H401.
  unfold Client.refresh_succeeds in Hfail.
  change (getItem "refresh_token" (after_first c w))
    with (getItem "refresh_token" w) in Hfail.
  destruct (truthy_item (getItem "refresh_token" w)) eqn:Ht.
  2:{ eexists _, _. split.
      - rewrite (run_no_refresh_token _ _ _ _ _ _ E H401 Ht). reflexivity.
      - split; [done|]. split; [by intros _|].
        intros rt Hrt Hne. by destruct (Hne (truthy_item_false _ _ Ht Hrt)). }
  unfold axios_post in Hfail.
  fold (refresh_request (default "" (getItem "refresh_token" w))) in Hfail.
  destruct (dispatch_cases net ViaAxios
              (refresh_request (default "" (getItem "refresh_token" w)))
              (after_first c w)) as [[r2 E2]|[resp2 E2]].
  - rewrite E2 in Hfail. simpl in Hfail.
    destruct (Js.get "access_token" (rdata r2)) eqn:Ha; [done|].
    eexists _, _. split.
    + rewrite (run_refresh_malformed _ _ _ _ _ _ _ E H401 Ht E2 Ha).
      reflexivity.
    + split; [done|]. split; [done|].
      intros rt Hrt _. split.
      { simpl. rewrite Hrt. simpl. by rewrite <- app_assoc. }
      rewrite Hrt in E2. rewrite ?Hrt. simpl in E2 |- *.
      rewrite dispatch_net in E2. simpl in E2.
      destruct (net _ (ViaAxios (refresh_request rt))) as [r3|]; [|done].
      destruct (validateStatus (status r3)); [|done].
      injection E2 as ->. split; [done|].
      destruct (rdata r2); try done; auto.
  - eexists _, _. split.
    + rewrite (run_refresh_failed _ _ _ _ _ _ _ E H401 Ht E2). reflexivity.
    + split.
      { intros [= Hcfg _].
        destruct (first_request_merged c w) as [Hb _].
        rewrite <- Hcfg in Hb. done. }
      split; [done|].
      intros rt Hrt _. split.
      { simpl. rewrite Hrt. simpl. by rewrite <- app_assoc. }
      rewrite Hrt in E2. rewrite ?Hrt. simpl in E2 |- *.
      rewrite dispatch_net in E2. simpl in E2.
      destruct (net _ (ViaAxios (refresh_request rt))) as [r3|].
      * destruct (validateStatus (status r3)); [done|]. by injection E2 as <-.
      * by injection E2 as <-.
Qed.

End WithEnvironment.

(** ** The URLs of the task helpers *)

Lemma string_app_inv_head (p a b : string) : p +:+ a = p +:+ b -> a = b.
Proof.
  induction p as [|x p IH]; [done|]. rewrite !TextFacts.app_cons.
  intros [= H]. auto.
Qed.

(** X7. The task helpers address one task by one path: [getTask],
    [updateTask] and [deleteTask] share it, and two ids give the same path
    only when they are equal. The id is put into the path as it is, with no
    escaping: the completion route of an id is also what [getTask] requests
    for that id followed by ["/complete"]. *)
Theorem task_paths (taskId taskId' : string) (taskData : Js.value) (v : bool) :
  url (taskApi.updateTask taskId taskData) = url (taskApi.getTask taskId) /\
  url (taskApi.deleteTask taskId) = url (taskApi.getTask taskId) /\
  (url (taskApi.getTask taskId) = url (taskApi.getTask taskId') <->
   taskId = taskId') /\
  url (taskApi.toggleTaskComplete taskId v)
  = url (taskApi.getTask taskId) +:+ "/complete" /\
  taskApi.getTask (taskId +:+ "/complete")
  = get (url (taskApi.toggleTaskComplete taskId v)) Js.Undefined.
Proof.
  repeat split.
  - apply string_app_inv_head.
  - by intros ->.
Qed.

End ClientMore.

(** * Facts about [validate_email] *)

Module EmailFacts.
Import Text TextSpec TextFacts Backend.

(** ** The matcher decides the language *)

Lemma app_eq_empty s1 s2 : s1 +:+ s2 = "" -> s1 = "" /\ s2 = "".
Proof. destruct s1; [done|]. by rewrite app_cons. Qed.

Lemma app_assoc_s (a b c : string) : (a +:+ b) +:+ c = a +:+ (b +:+ c).
Proof.
  induction a as [|x a IH]; [done|]. rewrite !app_cons. by rewrite IH.
Qed.

Lemma nullable_lang r : nullable r = true <-> lang r "".
Proof.
  induction r as [| |p|r1 IH1 r2 IH2|r1 IH1 r2 IH2|r IH]; simpl.
  - split; [done|tauto].
  - done.
  - split; [done|]. by intros (a & H & _).
  - rewrite andb_true_iff, IH1, IH2. split.
    + intros [H1 H2]. by exists "", "".
    + intros (s1 & s2 & H & H1 & H2). symmetry in H.
      apply app_eq_empty in H as [-> ->]. done.
  - by rewrite orb_true_iff, IH1, IH2.
  - split; [|done]. intros _. constructor.
Qed.

Lemma star_cons_inv (L : string -> Prop) a s :
  star L (String a s) ->
  exists s1 s2, s = s1 +:+ s2 /\ L (String a s1) /\ star L s2.
Proof.
  intros H. remember (String a s) as t eqn:Ht. revert a s Ht.
  induction H as [|s1 s2 H1 H2 IH]; intros a s Ht; [done|].
  destruct s1 as [|b s1].
  - by apply IH.
  - rewrite app_cons in Ht. injection Ht as Ha Hs. subst. eauto.
Qed.

Lemma deriv_lang a r s : lang (deriv a r) s <-> lang r (String a s).
Proof.
  revert s.
  induction r as [| |p|r1 IH1 r2 IH2|r1 IH1 r2 IH2|r IH]; intros s; simpl.
  - done.
  - done.
  - destruct (p a) eqn:Hp; simpl.
    + split; [intros ->; eauto|]. by intros (b & [= <- ->] & _).
    + split; [done|]. intros (b & [= <- ->] & Hb). congruence.
  - assert ((exists s1 s2, s = s1 +:+ s2 /\ lang (deriv a r1) s1 /\ lang r2 s2)
            \/ (lang r1 "" /\ lang r2 (String a s))
            <-> exists s1 s2, String a s = s1 +:+ s2 /\ lang r1 s1 /\ lang r2 s2)
      as Hcat.
    { split.
      - intros [(s1 & s2 & -> & H1 & H2)|[H1 H2]].
        + exists (String a s1), s2. split; [done|]. split; [|done].
          by apply IH1.
        + by exists "", (String a s).
      - intros (s1 & s2 & Hs & H1 & H2). destruct s1 as [|b s1].
        + right. by rewrite Hs.
        + left. rewrite app_cons in Hs. injection Hs as Hb Hs. subst.
          exists s1, s2. split; [done|]. split; [|done]. by apply IH1. }
    destruct (nullable r1) eqn:Hn; simpl.
    + rewrite <- Hcat, IH2. split.
      * intros [H|H]; [by left|]. right. split; [|done].
        by apply nullable_lang.
      * intros [H|[_ H]]; [by left|by right].
    + rewrite <- Hcat. split; [by left|].
      intros [H|[H _]]; [done|]. apply nullable_lang in H. congruence.
  - by rewrite IH1, IH2.
  - split.
    + intros (s1 & s2 & -> & H1 & H2).
      change (String a (s1 +:+ s2)) with (String a s1 +:+ s2).
      constructor; [|done]. by apply IH.
    + intros H. apply star_cons_inv in H as (s1 & s2 & -> & H1 & H2).
      exists s1, s2. split; [done|]. split; [|done]. by apply IH.
Qed.

Lemma matches_lang r s : matches r s = true <-> lang r s.
Proof.
  revert r. induction s as [|a s IH]; intros r; simpl.
  - apply nullable_lang.
  - by rewrite IH, deriv_lang.
Qed.

(** ** Character classes *)

Lemma lang_star_class p s : lang (Star (Class p)) s <-> all_chars p s = true.
Proof.
  simpl. split.
  - induction 1 as [|s1 s2 (a & -> & Ha) _ IH]; [done|].
    rewrite app_cons. simpl. by rewrite Ha.
  - induction s as [|a s IH]; simpl; [constructor|].
    intros [Ha Hs]%andb_true_iff.
    change (String a s) with (String a "" +:+ s).
    constructor; [eauto|auto].
Qed.

Lemma lang_plus_class p s :
  lang (Plus (Class p)) s <-> s <> "" /\ all_chars p s = true.
Proof.
  unfold Plus. split.
  - intros (s1 & s2 & -> & (a & -> & Ha) & H2).
    apply lang_star_class in H2. rewrite app_cons. simpl.
    by rewrite Ha.
  - destruct s as [|a s]; [by intros [? _]|]. simpl.
    intros [_ [Ha Hs]%andb_true_iff].
    exists (String a ""), s. split; [done|]. split; [eauto|].
    by apply lang_star_class.
Qed.

Lemma is_char_eq c a : is_char c a = true <-> a = c.
Proof.
  unfold is_char, code. rewrite N.eqb_eq. split; [|by intros ->].
  intros H. apply (f_equal ascii_of_N) in H.
  by rewrite !ascii_N_embedding in H.
Qed.

(** ** The shape of the strings [email_regex] matches *)

Lemma email_regex_lang n :
  lang email_regex n <->
  exists l d t nl,
    n = l +:+ "@" +:+ d +:+ "." +:+ t +:+ nl /\
    (l <> "" /\ all_chars local_char l = true) /\
    (d <> "" /\ all_chars domain_char d = true) /\
    (2 <= String.length t /\ all_chars is_alpha t = true) /\
    (nl = "" \/ nl = newline).
Proof.
  unfold email_regex. cbn [lang]. split.
  - intros (l & s2 & -> & Hl & s3 & s4 & -> & (a & -> & Ha) &
            d & s6 & -> & Hd & s7 & s8 & -> & (b & -> & Hb) &
            s9 & s10 & -> & (t1 & -> & Ht1) &
            s11 & s12 & -> & (t2 & -> & Ht2) &
            ts & nl & -> & Hts & Hnl).
    apply is_char_eq in Ha as ->. apply is_char_eq in Hb as ->.
    apply lang_plus_class in Hl. apply lang_plus_class in Hd.
    apply (lang_star_class is_alpha) in Hts.
    exists l, d, (String t1 (String t2 ts)), nl.
    split; [done|]. split; [done|]. split; [done|]. split.
    + simpl. rewrite Ht1, Ht2, Hts. split; [lia|done].
    + destruct Hnl as [->|(c & -> & Hc)]; [by left|right].
      by apply is_char_eq in Hc as ->.
  - intros (l & d & t & nl & -> & Hl & Hd & [Hlen Ht] & Hnl).
    destruct t as [|t1 [|t2 ts]]; simpl in Hlen; [lia|lia|].
    simpl in Ht. apply andb_true_iff in Ht as [Ht1 Ht].
    apply andb_true_iff in Ht as [Ht2 Hts].
    exists l, ("@" +:+ d +:+ "." +:+ String t1 (String t2 ts) +:+ nl).
    split; [done|]. split; [by apply lang_plus_class|].
    exists "@", (d +:+ "." +:+ String t1 (String t2 ts) +:+ nl).
    split; [done|]. split; [by exists "@"%char|].
    exists d, ("." +:+ String t1 (String t2 ts) +:+ nl).
    split; [done|]. split; [by apply lang_plus_class|].
    exists ".", (String t1 (String t2 ts) +:+ nl).
    split; [done|]. split; [by exists "."%char|].
    exists (String t1 ""), (String t2 ts +:+ nl).
    split; [done|]. split; [eauto|].
    exists (String t2 ""), (ts +:+ nl).
    split; [done|]. split; [eauto|].
    exists ts, nl. split; [done|].
    split; [by apply (lang_star_class is_alpha)|].
    destruct Hnl as [->| ->]; [by left|right].
    by exists "010"%char.
Qed.

(** ** A trimmed string does not end in a newline *)

Lemma length_app_s s t :
  String.length (s +:+ t) = String.length s + String.length t.
Proof.
  induction s as [|a s IH]; [done|]. rewrite app_cons. simpl. by rewrite IH.
Qed.

Lemma rstrip_length s : String.length (rstrip s) <= String.length s.
Proof.
  induction s as [|a s IH]; [done|]. simpl.
  destruct (rstrip s) as [|b r]; simpl in *; [|lia].
  destruct (is_space a); simpl; lia.
Qed.

Lemma rstrip_fixed_no_newline s x : rstrip s = s -> s <> x +:+ newline.
Proof.
  intros Hfix ->. rewrite rstrip_spaces in Hfix by done.
  pose proof (rstrip_length x) as Hlen. rewrite Hfix, length_app_s in Hlen.
  simpl in Hlen. lia.
Qed.

Lemma rstrip_strip s : rstrip (strip s) = strip s.
Proof. unfold strip. apply rstrip_idem. Qed.

(** ** What [validate_email] accepts *)

Lemma validate_email_Some e n :
  validate_email e = Some n <->
  n = strip (lower e) /\ matches email_regex n = true.
Proof.
  unfold validate_email. split.
  - destruct (matches email_regex _) eqn:Hm; [|done]. by intros [= <-].
  - intros [-> Hm]. by rewrite Hm.
Qed.

Lemma validate_email_shape e n :
  validate_email e = Some n ->
  n = strip (lower e) /\
  exists l d t,
    n = l +:+ "@" +:+ d +:+ "." +:+ t /\
    (l <> "" /\ all_chars local_char l = true) /\
    (d <> "" /\ all_chars domain_char d = true) /\
    (2 <= String.length t /\ all_chars is_alpha t = true).
Proof.
  rewrite validate_email_Some, matches_lang, email_regex_lang.
  intros [Hn (l & d & t & nl & Heq & Hl & Hd & Ht & Hnl)].
  split; [done|]. exists l, d, t. split; [|done].
  destruct Hnl as [->| ->].
  - by rewrite app_empty_r in Heq.
  - exfalso. assert (rstrip n = n) as Hfix.
    { rewrite Hn. apply rstrip_strip. }
    apply (rstrip_fixed_no_newline n (l +:+ "@" +:+ d +:+ "." +:+ t) Hfix).
    by rewrite Heq, !app_assoc_s.
Qed.

(** X8. On ASCII input, [validate_email] accepts exactly when the lowercased
    and trimmed input reads [local@domain.tld]: a non-empty local part of
    letters, digits and [._%+-], a non-empty domain of letters, digits, dots
    and hyphens, and at least two letters after the last dot. It returns that
    form. *)
Theorem validate_email_accepts_exactly (e n : string) :
  is_ascii e = true ->
  validate_email e = Some n <->
  n = strip (lower e) /\
  exists l d t,
    n = l +:+ "@" +:+ d +:+ "." +:+ t /\
    (l <> "" /\ all_chars local_char l = true) /\
    (d <> "" /\ all_chars domain_char d = true) /\
    (2 <= String.length t /\ all_chars is_alpha t = true).
Proof.
  intros _. split; [apply validate_email_shape|].
  intros [Hn (l & d & t & Heq & Hl & Hd & Ht)].
  apply validate_email_Some. split; [done|].
  apply matches_lang, email_regex_lang.
  exists l, d, t, "". rewrite app_empty_r. split; [done|].
  repeat split; try apply Hl; try apply Hd; try apply Ht. by left.
Qed.

(** X9. What [validate_email] returns is in normal form: lowercasing or
    trimming it again changes nothing, and validating it again returns it
    unchanged. *)
Theorem validate_email_output_is_canonical (e n : string) :
  validate_email e = Some n ->
  lower n = n /\ strip n = n /\ validate_email n = Some n.
Proof.
  intros [-> Hm]%validate_email_Some.
  assert (lower (strip (lower e)) = strip (lower e)) as Hl.
  { by rewrite lower_strip, lower_idem. }
  assert (strip (strip (lower e)) = strip (lower e)) as Hs.
  { apply strip_idem. }
  split; [done|]. split; [done|].
  apply validate_email_Some. by rewrite Hl, Hs.
Qed.

(** X10. [validate_email] does not see letter case or surrounding blanks: two
    inputs that differ only in those are both rejected or both accepted with
    the same result. *)
Theorem validate_email_ignores_case_and_blanks (e e' : string) :
  email_variant e e' -> validate_email e = validate_email e'.
Proof.
  intros (p & core & q & p' & core' & q' & -> & -> & Hp & Hq & Hp' & Hq' & Hc).
  unfold validate_email. rewrite !lower_app, Hc.
  rewrite !strip_spaces; by rewrite ?all_space_lower.
Qed.

(** ** Counting the [@] *)

Lemma count_char_app c s t :
  count_char c (s +:+ t) = count_char c s + count_char c t.
Proof.
  induction s as [|a s IH]; [done|]. rewrite app_cons. simpl.
  rewrite IH. lia.
Qed.

Lemma at_lower_char a : is_char "@" (lower_char a) = is_char "@" a.
Proof. all_chars a. Qed.

Lemma at_not_space a : is_space a && is_char "@" a = false.
Proof. all_chars a. Qed.

Lemma at_not_local a : local_char a && is_char "@" a = false.
Proof. all_chars a. Qed.

Lemma at_not_domain a : domain_char a && is_char "@" a = false.
Proof. all_chars a. Qed.

Lemma at_not_alpha a : is_alpha a && is_char "@" a = false.
Proof. all_chars a. Qed.

Lemma count_at_lower s : count_char "@" (lower s) = count_char "@" s.
Proof.
  induction s as [|a s IH]; [done|]. simpl. by rewrite at_lower_char, IH.
Qed.

Lemma count_at_lstrip s : count_char "@" (lstrip s) = count_char "@" s.
Proof.
  induction s as [|a s IH]; [done|]. simpl.
  pose proof (at_not_space a) as H.
  destruct (is_space a); [|done]. simpl in H. by rewrite H, IH.
Qed.

Lemma count_at_rstrip s : count_char "@" (rstrip s) = count_char "@" s.
Proof.
  induction s as [|a s IH]; [done|]. simpl. rewrite <- IH.
  pose proof (at_not_space a) as H.
  destruct (rstrip s) as [|b r]; [|done].
  destruct (is_space a); [|done]. simpl in H. by rewrite H.
Qed.

Lemma count_at_class (p : ascii -> bool) s :
  (forall a, p a && is_char "@" a = false) ->
  all_chars p s = true -> count_char "@" s = 0.
Proof.
  intros Hp. induction s as [|a s IH]; [done|]. simpl.
  intros [Ha Hs]%andb_true_iff. specialize (Hp a). rewrite Ha in Hp.
  simpl in Hp. rewrite Hp, IH; done.
Qed.

(** X11. Every input [validate_email] accepts contains exactly one [@]: an
    input with none, or with several, is rejected. *)
Theorem validate_email_needs_one_at (e : string) :
  count_char "@" e <> 1 -> validate_email e = None.
Proof.
  intros Hcount. destruct (validate_email e) as [n|] eqn:Hv; [|done].
  destruct Hcount.
  apply validate_email_shape in Hv
    as [Hn (l & d & t & Heq & [_ Hl] & [_ Hd] & [_ Ht])].
  assert (count_char "@" n = 1) as Hone.
  { rewrite Heq, !count_char_app.
    rewrite (count_at_class _ _ at_not_local Hl).
    rewrite (count_at_class _ _ at_not_domain Hd).
    by rewrite (count_at_class _ _ at_not_alpha Ht). }
  rewrite Hn in Hone. unfold strip in Hone.
  by rewrite count_at_rstrip, count_at_lstrip, count_at_lower in Hone.
Qed.

End EmailFacts.

(** * Facts about the dashboard page *)

Module DashboardFacts.
Import Text TextSpec Dashboard.

Lemma step_modal e st :
  (editingTask st <> None -> showTaskModal st = true) ->
  editingTask (fst (step e st)) <> None ->
  showTaskModal (fst (step e st)) = true.
Proof.
  intros Hinv. destruct e; simpl; try done.
  - unfold confirmDelete. destruct (deletingTask st); [|done].
    by destruct ok.
  - unfold handleFormSubmit. by destruct ok.
Qed.


Lemma run_cons e es st :
  run (e :: es) st
  = (fst (run es (fst (step e st))),
     (snd (step e st) ++ snd (run es (fst (step e st))))%list).
Proof.
  simpl. destruct (step e st) as [st1 out1]. simpl.
  by destruct (run es st1).
Qed.

Lemma run_snoc es e st :
  fst (run (es ++ [e]) st) = fst (step e (fst (run es st))).
Proof.
  revert st. induction es as [|e0 es IH]; intros st.
  - simpl. by destruct (step e st).
  - change ((e0 :: es) ++ [e])%list with (e0 :: (es ++ [e]))%list.
    rewrite !run_cons. simpl. apply IH.
Qed.

(** X12. Whatever the user does, the form is in edit mode only while it is
    shown: a task is remembered for editing only with the task modal open.
    "Add Task" opens the form with no task to edit, the edit action opens it
    on its task, closing the form or a successful submit closes it and
    forgets the task, and a failed submit changes nothing, so the form stays
    open. A form opened through "Add Task" is therefore never bound to an
    earlier task: its submit sends a creation. *)
Theorem edit_mode_only_while_shown (es : list event) :
  let st := fst (run es initial) in
  let after := fun e => fst (run (es ++ [e]) initial) in
  (editingTask st <> None -> showTaskModal st = true) /\
  (showTaskModal (after AddTask) = true /\
   editingTask (after AddTask) = None) /\
  (forall t,
     showTaskModal (after (EditTask t)) = true /\
     editingTask (after (EditTask t)) = Some t) /\
  (showTaskModal (after CloseTaskModal) = false /\
   editingTask (after CloseTaskModal) = None) /\
  (forall taskData,
     showTaskModal (after (SubmitForm taskData true)) = false /\
     editingTask (after (SubmitForm taskData true)) = None) /\
  (forall taskData, after (SubmitForm taskData false) = st) /\
  (forall taskData ok,
     snd (run [AddTask; SubmitForm taskData ok] st)
     = [(Client.taskApi.createTask taskData, ok)]).
Proof.
  intros st after.
  assert (forall st0,
    (editingTask st0 <> None -> showTaskModal st0 = true) ->
    editingTask (fst (run es st0)) <> None ->
    showTaskModal (fst (run es st0)) = true) as Hgen.
  { induction es as [|e es' IH]; intros st0 Hinv; [done|].
    rewrite run_cons. simpl. apply IH. by apply step_modal. }
  split; [by apply Hgen|].
  unfold after. repeat split; intros; rewrite ?run_snoc; try done.
  simpl. unfold handleFormSubmit. simpl. by destruct ok.
Qed.


(** ** The greeting *)

Lemma split_head_at l rest :
  all_chars Backend.local_char l = true ->
  split_head "@" (l +:+ "@" +:+ rest) = l.
Proof.
  induction l as [|a l IH]; [done|]. rewrite TextFacts.app_cons. simpl.
  intros [Ha Hl]%andb_true_iff.
  pose proof (EmailFacts.at_not_local a) as Hat. rewrite Ha in Hat.
  simpl in Hat. by rewrite Hat, IH.
Qed.

(** X14. A user without a first name is greeted by the part of the email
    before the [@]; for an email that [validate_email] accepted this part is
    never empty. A non-empty first name always wins. *)
Theorem displayName_of_validated_email (e n : string) (u : user) :
  Backend.validate_email e = Some n ->
  email u = Some n ->
  exists l rest,
    n = l +:+ "@" +:+ rest /\ l <> "" /\ count_char "@" l = 0 /\
    displayName (Some u)
    = if Client.truthy_item (first_name u) then first_name u else Some l.
Proof.
  intros Hv Hmail.
  apply EmailFacts.validate_email_shape in Hv
    as [_ (l & d & t & -> & [Hne Hl] & _)].
  exists l, (d +:+ "." +:+ t). split; [done|]. split; [done|].
  split; [by apply (EmailFacts.count_at_class _ _ EmailFacts.at_not_local)|].
  unfold displayName. destruct (Client.truthy_item (first_name u)); [done|].
  rewrite Hmail. simpl. by rewrite split_head_at.
Qed.

End DashboardFacts.

(** ** More runs on concrete sessions *)

Module ClientMoreWitness.
Import Client Scenario ClientFacts ClientMore.

Lemma apiClient_touches_only_token_entries_witness :
  exists r w',
    apiClient None strict_server 2 list_tasks_request themed_session
    = Some (r, w') /\
    getItem "theme" w' = Some "dark".
Proof.
  destruct (apiClient_touches_only_token_entries None strict_server 0
              list_tasks_request themed_session "theme")
    as (r & w' & Hrun & Hkeep); [done|done|].
  exists r, w'. split; [exact Hrun|]. rewrite Hkeep. reflexivity.
Defined.

Lemma stale_session_three_calls :
  exists r w' c1 e2 c3,
    apiClient None strict_server 2 list_tasks_request stale_session
    = Some (r, w') /\
    calls w' = (calls stale_session ++ [ViaClient c1; e2; ViaClient c3])%list.
Proof. eexists _, _, _, _, _. split; reflexivity. Qed.

Lemma retried_request_is_first_with_new_bearer_witness :
  exists r w' c1 e2 c3,
    apiClient None strict_server 2 list_tasks_request stale_session
    = Some (r, w') /\
    calls w' = [ViaClient c1; e2; ViaClient c3] /\
    c3 = set_header "Authorization" "Bearer a2" (set_retry c1).
Proof.
  destruct stale_session_three_calls
    as (r & w' & c1 & e2 & c3 & Hrun & Hcalls).
  destruct (retried_request_is_first_with_new_bearer None strict_server 0
              list_tasks_request stale_session r w' c1 c3 e2 Hrun Hcalls)
    as (token & Htoken & Hc3).
  exists r, w', c1, e2, c3. split; [exact Hrun|]. split; [exact Hcalls|].
  assert (getItem "access_token" w' = Some "a2") as Ha2.
  { revert Hrun. vm_compute. by intros [= _ <-]. }
  rewrite Ha2 in Htoken. injection Htoken as <-. exact Hc3.
Defined.

Lemma second_answer_is_final_witness :
  exists c3 w',
    apiClient None stubborn_server 2 list_tasks_request stale_session
    = Some (Rejected (AxiosError c3 (Some (Response 401 Js.Null))), w') /\
    length (calls w') = 3 /\
    getItem "access_token" w' = Some "a2" /\
    getItem "refresh_token" w' = Some "r2" /\
    location_href w' = "/dashboard".
Proof.
  destruct (second_answer_is_final None stubborn_server 0
              list_tasks_request stale_session
              (Response 401 Js.Null)
              (Response 200 (Js.Obj [("access_token", Js.Str "a2");
                                     ("refresh_token", Js.Str "r2")]))
              "r1" (Js.Str "a2") (Js.Str "r2")
              eq_refl eq_refl eq_refl eq_refl ltac:(discriminate)
              eq_refl eq_refl eq_refl eq_refl)
    as (r & w' & Hrun & Hcalls & Hr & Hstore & Hloc).
  simpl in Hr. subst r.
  eexists _, w'. split; [exact Hrun|].
  split; [by rewrite Hcalls|].
  unfold getItem. rewrite Hstore. simpl.
  split; [reflexivity|]. split; [reflexivity|exact Hloc].
Defined.

Lemma next_request_after_cycle_witness :
  exists r w',
    apiClient None strict_server 2 list_tasks_request stale_session
    = Some (r, w') /\
    forall c',
      first_request None c' w'
      = set_header "Authorization" "Bearer a2" (mergeConfig None c').
Proof.
  destruct (next_request_after_cycle None strict_server 0
              list_tasks_request stale_session (Response 401 Js.Null)
              eq_refl eq_refl eq_refl)
    as (r & w' & Hrun & Hnext & _).
  exists r, w'. split; [exact Hrun|].
  exact (proj2 (Hnext "r1"
                  (Response 200 (Js.Obj [("access_token", Js.Str "a2")]))
                  (Js.Str "a2") eq_refl ltac:(discriminate)
                  eq_refl eq_refl eq_refl)).
Defined.

(** A failed login from a browser that never logged in: the caller does not
    get the server's 401. With a stale session the caller gets the error of
    the refresh call. *)
Lemma original_401_is_replaced_witness :
  (exists w',
     apiClient None rejecting_server 1
       (authApi.login "user@x.com" "wrong-password") fresh_browser
     = Some (Rejected (JsError "No refresh token available"), w') /\
     length (calls w') = 1) /\
  (exists w',
     apiClient None rejecting_server 1 list_tasks_request stale_session
     = Some (Rejected
               (AxiosError (refresh_request None "r1")
                  (Some (Response 401
                           (Js.Obj [("detail", Js.Str "Not authenticated")])))),
             w') /\
     length (calls w') = 2).
Proof.
  split.
  - destruct (original_401_is_replaced None rejecting_server 0
                (authApi.login "user@x.com" "wrong-password") fresh_browser
                (Response 401 (Js.Obj [("detail", Js.Str "Not authenticated")]))
                eq_refl eq_refl eq_refl eq_refl)
      as (e & w' & Hrun & _ & Hplain & _).
    destruct (Hplain eq_refl) as [-> Hcalls].
    exists w'. split; [exact Hrun|]. rewrite Hcalls. reflexivity.
  - destruct (original_401_is_replaced None rejecting_server 0
                list_tasks_request stale_session
                (Response 401 (Js.Obj [("detail", Js.Str "Not authenticated")]))
                eq_refl eq_refl eq_refl eq_refl)
      as (e & w' & Hrun & _ & _ & Hstep).
    destruct (Hstep "r1" eq_refl ltac:(discriminate)) as [Hcalls Herr].
    simpl in Herr. subst e.
    exists w'. split; [exact Hrun|]. rewrite Hcalls. reflexivity.
Defined.

Lemma promise_resolves_only_on_2xx_witness :
  exists w' history c',
    apiClient None strict_server 2 list_tasks_request stale_session
    = Some (Resolved (Response 200 (Js.Obj [])), w') /\
    calls w' = (history ++ [ViaClient c'])%list /\
    url c' = "/api/v1/tasks".
Proof.
  assert (exists w',
    apiClient None strict_server 2 list_tasks_request stale_session
    = Some (Resolved (Response 200 (Js.Obj [])), w')) as [w' Hrun].
  { eexists. reflexivity. }
  destruct (promise_resolves_only_on_2xx None strict_server 0
              list_tasks_request stale_session _ w' Hrun)
    as (_ & history & c' & Hcalls & _ & _ & Hurl & _).
  exists w', history, c'. split; [exact Hrun|]. split; [exact Hcalls|].
  exact Hurl.
Defined.

End ClientMoreWitness.


(** ** [validate_email] and the dashboard on concrete inputs *)

Module MoreWitness.
Import Text TextSpec Backend EmailFacts.

Example validate_email_shape_example :
  validate_email " Ann.Lee+todo@Mail.Example.ORG" 
  = Some "ann.lee+todo@mail.example.org".
Proof. reflexivity. Qed.

Lemma validate_email_accepts_exactly_witness :
  validate_email " Ann.Lee+todo@Mail.Example.ORG"
  = Some "ann.lee+todo@mail.example.org".
Proof.
  apply (proj2 (validate_email_accepts_exactly
                  " Ann.Lee+todo@Mail.Example.ORG"
                  "ann.lee+todo@mail.example.org" eq_refl)).
  split; [reflexivity|].
  exists "ann.lee+todo", "mail.example", "org".
  repeat split; try reflexivity; try discriminate. simpl. lia.
Defined.

Lemma validate_email_output_is_canonical_witness :
  validate_email "user@x.com" = Some "user@x.com".
Proof.
  apply (validate_email_output_is_canonical "  USER@X.com " "user@x.com").
  reflexivity.
Defined.

Lemma validate_email_ignores_case_and_blanks_witness :
  validate_email "  USER@X.com " = validate_email "user@x.com".
Proof.
  apply validate_email_ignores_case_and_blanks.
  exists "  ", "USER@X.com", " ", "", "user@x.com", "".
  repeat split; reflexivity.
Defined.

Lemma validate_email_needs_one_at_witness :
  validate_email "user.x.com" = None /\ validate_email "a@b@x.com" = None.
Proof.
  split; apply validate_email_needs_one_at; simpl; lia.
Defined.

Lemma edit_mode_only_while_shown_witness :
  let t := Dashboard.mkTask "t1" "A" in
  Dashboard.showTaskModal
    (fst (Dashboard.run
            [Dashboard.AskDelete t; Dashboard.ConfirmDelete false;
             Dashboard.EditTask t; Dashboard.SubmitForm Js.Null false]
            Dashboard.initial))
  = true.
Proof.
  intros t.
  apply (proj1 (DashboardFacts.edit_mode_only_while_shown
                  [Dashboard.AskDelete t; Dashboard.ConfirmDelete false;
                   Dashboard.EditTask t; Dashboard.SubmitForm Js.Null false])).
  discriminate.
Defined.

Lemma displayName_of_validated_email_witness :
  exists l,
    Dashboard.displayName
      (Some (Dashboard.mkUser (Some "") (Some "user@x.com")))
    = Some l /\ l <> "".
Proof.
  destruct (DashboardFacts.displayName_of_validated_email
              "  USER@X.com " "user@x.com"
              (Dashboard.mkUser (Some "") (Some "user@x.com"))
              eq_refl eq_refl)
    as (l & rest & _ & Hne & _ & Hname).
  exists l. split; [exact Hname|exact Hne].
Defined.

Example displayName_examples :
  Dashboard.displayName
    (Some (Dashboard.mkUser None (Some "user@x.com"))) = Some "user" /\
  Dashboard.displayName
    (Some (Dashboard.mkUser (Some "Ann") (Some "user@x.com"))) = Some "Ann" /\
  Dashboard.displayName None = None.
Proof. repeat split; reflexivity. Qed.

End MoreWitness.
